(** * DNS policy resolution of the cloud self-service API

    A shallow embedding of the webhook entry point
    ([internal/routes/routes_webhook.go]), of the rule store
    ([internal/storage/storage.go]) and of the policy part of the process
    configuration ([internal/config/app_config.go]), with the properties the
    specification states about them.

    Go strings are byte sequences; they are modelled by [string], whose
    characters are the bytes.  [int64] identifiers and time stamps are
    modelled by [Z]; no arithmetic is performed on them, so no wrap-around
    arises. *)

From Stdlib Require Import ZArith Ascii String List Bool Lia DecimalString.
From Stdlib Require Import Sorting.Sorted Sorting.Permutation.
From stdpp Require Import base decidable strings gmap.

Import ListNotations.
Open Scope string_scope.
Open Scope list_scope.
Open Scope Z_scope.

(** ** The part of Go's [strings] package used by the handlers *)

Module strings.

(** [strings.HasPrefix(s, prefix)]. *)
Fixpoint HasPrefix (s prefix : string) {struct prefix} : bool :=
  match prefix with
  | EmptyString => true
  | String p prefix' =>
      match s with
      | EmptyString => false
      | String c s' => Ascii.eqb c p && HasPrefix s' prefix'
      end
  end.

(** [s[n:]] for [n <= len(s)]. *)
Fixpoint drop (n : nat) (s : string) : string :=
  match n, s with
  | O, _ => s
  | S n', String _ s' => drop n' s'
  | S _, EmptyString => EmptyString
  end.

(** [strings.CutPrefix(s, prefix)]: the rest of [s] and [true] when [s]
    starts with [prefix], otherwise [s] itself and [false]. *)
Definition CutPrefix (s prefix : string) : string * bool :=
  if HasPrefix s prefix then (drop (String.length prefix) s, true)
  else (s, false).

(** [strings.Contains(s, substr)]. *)
Fixpoint Contains (s substr : string) : bool :=
  HasPrefix s substr ||
  match s with
  | EmptyString => false
  | String _ s' => Contains s' substr
  end.

(** The scan of [strings.ReplaceAll(s, old, new)] for a non-empty [old]:
    occurrences are found from left to right and do not overlap.  [skip]
    counts the bytes of the occurrence just replaced that are still to be
    stepped over. *)
Fixpoint replaceFrom (skip : nat) (s old new : string) : string :=
  match s with
  | EmptyString => EmptyString
  | String c s' =>
      match skip with
      | S k => replaceFrom k s' old new
      | O =>
          if HasPrefix s old
          then new +:+ replaceFrom (Nat.pred (String.length old)) s' old new
          else String c (replaceFrom O s' old new)
      end
  end.

(** [strings.ReplaceAll(s, old, new)], for the non-empty [old] of the
    handlers (an empty [old] makes Go insert [new] between the
    characters, which no caller here asks for; [s] is returned then). *)
Definition ReplaceAll (s old new : string) : string :=
  match old with
  | EmptyString => s
  | _ => replaceFrom O s old new
  end.

(** The scan of [strings.Split(s, sep)] for a non-empty [sep]: the piece
    in progress and the pieces after it. *)
Fixpoint splitFrom (skip : nat) (s sep : string) : string * list string :=
  match s with
  | EmptyString => (EmptyString, [])
  | String c s' =>
      match skip with
      | S k => splitFrom k s' sep
      | O =>
          if HasPrefix s sep
          then
            let '(piece, pieces) := splitFrom (Nat.pred (String.length sep)) s' sep in
            (EmptyString, piece :: pieces)
          else
            let '(piece, pieces) := splitFrom O s' sep in
            (String c piece, pieces)
      end
  end.

(** [strings.Split(s, sep)] for a non-empty [sep]. *)
Definition Split (s sep : string) : list string :=
  let '(piece, pieces) := splitFrom O s sep in piece :: pieces.

(** [strings.Join(elems, sep)]. *)
Fixpoint Join (elems : list string) (sep : string) : string :=
  match elems with
  | [] => EmptyString
  | [e] => e
  | e :: rest => e +:+ sep +:+ Join rest sep
  end.

End strings.

(** ** Errors *)

(** Go [error] values as the handlers build and compare them. *)
Inductive error : Type :=
| ErrRecordNotFound                       (* gorm.ErrRecordNotFound *)
| ErrMissingWhereClause                   (* gorm.ErrMissingWhereClause *)
| ErrDriver (msg : string)                (* a failure reported by the database *)
| ErrNew (msg : string)                   (* errors.New(msg) *)
| Errorf (msg : string) (wrapped : error) (* fmt.Errorf(msg + ": %w", wrapped) *).

(** [err.Error()]. *)
Fixpoint errorString (e : error) : string :=
  match e with
  | ErrRecordNotFound => "record not found"
  | ErrMissingWhereClause => "WHERE conditions required"
  | ErrDriver msg => msg
  | ErrNew msg => msg
  | Errorf msg wrapped => msg +:+ ": " +:+ errorString wrapped
  end.

(** A Go result pair [(T, error)] of which exactly one side is set. *)
Inductive result (A : Type) : Type :=
| Ok (a : A)
| Err (e : error).
Arguments Ok {A} a.
Arguments Err {A} e.

#[global] Instance error_eq_dec : EqDecision error.
Proof. solve_decision. Defined.

(** [%d] of an [int64]. *)
Definition itoa (z : Z) : string := NilZero.string_of_int (Z.to_int z).

(** ** The rule store ([internal/storage]) *)

Module storage.

(** [storage.PolicyRule], the GORM model.  The primary key is [ID];
    [ZonePattern] carries a unique index. *)
Record PolicyRule : Type := {
  ID : Z;
  ZonePattern : string;
  ZoneSoa : string;
  TargetUserFilter : string;
  Description : string;
  CreatedAt : Z
}.

#[global] Instance PolicyRule_eq_dec : EqDecision PolicyRule.
Proof. solve_decision. Defined.

(** The database behind [*gorm.DB]: the rows of the rule table in the
    order the engine keeps them, the dialect chosen in [NewStorage], and
    the failure, if any, that the connection answers every statement
    with. *)
Inductive Dialect : Type := sqlite | postgres | mysql.

Record DB : Type := {
  rows : list PolicyRule;
  dialect : Dialect;
  fault : option string
}.

(** [storage.Storage]. *)
Record Storage : Type := { db : DB }.

(** What a finished GORM statement reports. *)
Record Result : Type := {
  Error : option error;
  RowsAffected : Z
}.

(** Ascending order of identifiers. *)
Definition ascendingById (a b : PolicyRule) : Prop := ID a <= ID b.

(** *** GORM statements issued by the store *)

(** [ORDER BY id ASC]: a stable insertion into the ordered prefix. *)
Fixpoint insertById (r : PolicyRule) (l : list PolicyRule) : list PolicyRule :=
  match l with
  | [] => [r]
  | x :: l' => if ID r <=? ID x then r :: l else x :: insertById r l'
  end.

Fixpoint orderByIdAsc (l : list PolicyRule) : list PolicyRule :=
  match l with
  | [] => []
  | r :: l' => insertById r (orderByIdAsc l')
  end.

(** [db.Order("id asc").Find(&rules)]. *)
Definition dbOrderIdAscFind (d : DB) : list PolicyRule * Result :=
  match fault d with
  | Some msg => ([], {| Error := Some (ErrDriver msg); RowsAffected := 0 |})
  | None =>
      let found := orderByIdAsc (rows d) in
      (found, {| Error := None; RowsAffected := Z.of_nat (List.length found) |})
  end.

(** [db.First(&rule, id)]: the row with primary key [id], lowest first. *)
Definition dbFirst (d : DB) (id : Z) : option PolicyRule * Result :=
  match fault d with
  | Some msg => (None, {| Error := Some (ErrDriver msg); RowsAffected := 0 |})
  | None =>
      match List.filter (fun r => ID r =? id) (orderByIdAsc (rows d)) with
      | r :: _ => (Some r, {| Error := None; RowsAffected := 1 |})
      | [] => (None, {| Error := Some ErrRecordNotFound; RowsAffected := 0 |})
      end
  end.

(** The assignment made by
    [Select("ZonePattern", "TargetUserFilter", "Description").Updates(rule)]
    to one row: the three selected columns take the values of [rule], zero
    values included; every other column keeps the stored value. *)
Definition assignSelected (rule stored : PolicyRule) : PolicyRule :=
  {| ID := ID stored;
     ZonePattern := ZonePattern rule;
     ZoneSoa := ZoneSoa stored;
     TargetUserFilter := TargetUserFilter rule;
     Description := Description rule;
     CreatedAt := CreatedAt stored |}.

Definition updateRow (rule stored : PolicyRule) : PolicyRule :=
  if ID stored =? ID rule then assignSelected rule stored else stored.

(** The unique index on [zone_pattern] rejects the statement when a row
    it rewrites would take a pattern another row already holds. *)
Definition violatesUnique (d : DB) (rule : PolicyRule) : bool :=
  existsb (fun r => ID r =? ID rule) (rows d) &&
  existsb (fun r => negb (ID r =? ID rule)
                    && String.eqb (ZonePattern r) (ZonePattern rule)) (rows d).

(** Rows counted by the statement: the rows matched by the [WHERE]
    clause, except under MySQL, which counts the rows whose content
    changed. *)
Definition affected (d : DB) (rule : PolicyRule) : Z :=
  let matched := List.filter (fun r => ID r =? ID rule) (rows d) in
  match dialect d with
  | mysql =>
      Z.of_nat (List.length
        (List.filter (fun r => negb (bool_decide (assignSelected rule r = r))) matched))
  | _ => Z.of_nat (List.length matched)
  end.

(** [db.Model(rule).Select(...).Updates(rule)]: [UPDATE policy_rules SET
    zone_pattern, target_user_filter, description WHERE id = rule.ID].
    A zero primary key adds no [WHERE] clause, which GORM refuses. *)
Definition dbModelSelectUpdates (d : DB) (rule : PolicyRule) : DB * Result :=
  match fault d with
  | Some msg => (d, {| Error := Some (ErrDriver msg); RowsAffected := 0 |})
  | None =>
      if ID rule =? 0
      then (d, {| Error := Some ErrMissingWhereClause; RowsAffected := 0 |})
      else if violatesUnique d rule
      then (d, {| Error := Some (ErrDriver "UNIQUE constraint failed: policy_rules.zone_pattern");
                  RowsAffected := 0 |})
      else ({| rows := List.map (updateRow rule) (rows d);
               dialect := dialect d;
               fault := fault d |},
            {| Error := None; RowsAffected := affected d rule |})
  end.

(** *** CRUD operations *)

(** [PolicyGetAll] retrieves all rules from the database. *)
Definition PolicyGetAll (s : Storage) : result (list PolicyRule) :=
  let '(rules, res) := dbOrderIdAscFind (db s) in
  match Error res with
  | Some e => Err (Errorf "storage.GetAll: Failed to retrieve rules" e)
  | None => Ok rules
  end.

(** [PolicyGetByID] retrieves a single rule by its ID. *)
Definition PolicyGetByID (s : Storage) (id : Z) : result (option PolicyRule) :=
  let '(rule, res) := dbFirst (db s) id in
  match Error res with
  | Some e =>
      if bool_decide (e = ErrRecordNotFound)
      then Err ErrRecordNotFound
      else Err (Errorf ("storage.GetByID: Failed to retrieve rule " +:+ itoa id) e)
  | None => Ok rule
  end.

(** [PolicyUpdate] modifies an existing rule.  The result is the store
    after the call together with what the caller gets back: its own
    [rule] object on success. *)
Definition PolicyUpdate (s : Storage) (rule : PolicyRule)
  : Storage * result PolicyRule :=
  let '(d', res) := dbModelSelectUpdates (db s) rule in
  let s' := {| db := d' |} in
  match Error res with
  | Some e =>
      (s', Err (Errorf ("storage.Update: Failed to update rule " +:+ itoa (ID rule)) e))
  | None =>
      if RowsAffected res =? 0
      then
        match PolicyGetByID s' (ID rule) with
        | Err e =>
            if bool_decide (e = ErrRecordNotFound)
            then (s', Err ErrRecordNotFound)
            else (s', Err (Errorf ("storage.Update: Rule " +:+ itoa (ID rule)
                                    +:+ " was not found after attempted update") e))
        | Ok _ => (s', Ok rule)
        end
      else (s', Ok rule)
  end.

(** *** Creation and deletion *)

(** What a call reads from outside the store: the instant [time.Now()]
    returns if the call asks for it, and the identifier the sequence of the
    table hands out if the row brings none.  Instants are counted in
    nanoseconds from Go's zero [time.Time]. *)
Record Readings : Type := {
  clock : Z;
  serial : Z
}.

(** [t.IsZero()]. *)
Definition IsZero (t : Z) : bool := t =? 0.

(** [time.Hour], a [time.Duration] in nanoseconds. *)
Definition Hour : Z := 3600 * 1000000000.

(** [t.Add(d)]. *)
Definition Add (t d : Z) : Z := t + d.

Definition withID (id : Z) (rule : PolicyRule) : PolicyRule :=
  {| ID := id;
     ZonePattern := ZonePattern rule;
     ZoneSoa := ZoneSoa rule;
     TargetUserFilter := TargetUserFilter rule;
     Description := Description rule;
     CreatedAt := CreatedAt rule |}.

Definition withCreatedAt (t : Z) (rule : PolicyRule) : PolicyRule :=
  {| ID := ID rule;
     ZonePattern := ZonePattern rule;
     ZoneSoa := ZoneSoa rule;
     TargetUserFilter := TargetUserFilter rule;
     Description := Description rule;
     CreatedAt := t |}.

(** [db.Create(rule)]: [INSERT INTO policy_rules].  A zero [ID] is filled
    in from the sequence of the table and written back into [rule]; the
    primary key and the unique index on [zone_pattern] reject a row whose
    key is taken.  The length limits of the columns are not modelled. *)
Definition dbCreate (d : DB) (serial : Z) (rule : PolicyRule)
  : DB * PolicyRule * Result :=
  match fault d with
  | Some msg => (d, rule, {| Error := Some (ErrDriver msg); RowsAffected := 0 |})
  | None =>
      let row := if ID rule =? 0 then withID serial rule else rule in
      if existsb (fun r => ID r =? ID row) (rows d)
      then (d, rule, {| Error := Some (ErrDriver "UNIQUE constraint failed: policy_rules.id");
                        RowsAffected := 0 |})
      else if existsb (fun r => String.eqb (ZonePattern r) (ZonePattern row)) (rows d)
      then (d, rule, {| Error := Some (ErrDriver "UNIQUE constraint failed: policy_rules.zone_pattern");
                        RowsAffected := 0 |})
      else ({| rows := rows d ++ [row]; dialect := dialect d; fault := fault d |},
            row,
            {| Error := None; RowsAffected := 1 |})
  end.

(** [db.Delete(&PolicyRule{}, id)]: [DELETE FROM policy_rules WHERE id = ?]. *)
Definition dbDelete (d : DB) (id : Z) : DB * Result :=
  match fault d with
  | Some msg => (d, {| Error := Some (ErrDriver msg); RowsAffected := 0 |})
  | None =>
      ({| rows := List.filter (fun r => negb (ID r =? id)) (rows d);
          dialect := dialect d;
          fault := fault d |},
       {| Error := None;
          RowsAffected :=
            Z.of_nat (List.length (List.filter (fun r => ID r =? id) (rows d))) |})
  end.

(** [PolicyCreate] inserts a new rule into the database. *)
Definition PolicyCreate (s : Storage) (env : Readings) (rule : PolicyRule)
  : Storage * result PolicyRule :=
  let rule := if IsZero (CreatedAt rule) then withCreatedAt (clock env) rule else rule in
  let '(d', rule, res) := dbCreate (db s) (serial env) rule in
  let s' := {| db := d' |} in
  match Error res with
  | Some e => (s', Err (Errorf "storage.Create: Failed to create rule" e))
  | None => (s', Ok rule)
  end.

(** [PolicyDelete] removes a rule from the database by its ID; [None] is
    Go's [nil]. *)
Definition PolicyDelete (s : Storage) (id : Z) : Storage * option error :=
  let '(d', res) := dbDelete (db s) id in
  let s' := {| db := d' |} in
  match Error res with
  | Some e =>
      (s', Some (Errorf ("storage.Delete: Failed to delete rule " +:+ itoa id) e))
  | None =>
      if RowsAffected res =? 0 then (s', Some ErrRecordNotFound) else (s', None)
  end.

(** The slice literal of [PolicyInsertDummyData]; [built i] is what the
    i-th [time.Now()] of the literal returns. *)
Definition dummyRules (built : nat -> Z) : list PolicyRule :=
  [ {| ID := 0;
       ZonePattern := "%u.users.dhbw.cloud";
       ZoneSoa := "users.dhbw.cloud";
       TargetUserFilter := "*@dhbw.de";
       Description := "Automatic personal zones for DHBW users";
       CreatedAt := Add (built 0%nat) (-24 * Hour) |};
    {| ID := 0;
       ZonePattern := "project.dhbw.cloud";
       ZoneSoa := "project.dhbw.cloud";
       TargetUserFilter := "*@dhbw.de";
       Description := "All DHBW users can manage a common project zone";
       CreatedAt := Add (built 1%nat) (-24 * Hour) |};
    {| ID := 0;
       ZonePattern := "%u.cloud.uni-luebeck.de";
       ZoneSoa := "cloud.uni-luebeck.de";
       TargetUserFilter := "*@uni-luebeck.de";
       Description := "All Uni-Luebeck users can create subdomains";
       CreatedAt := Add (built 2%nat) (-24 * Hour) |} ].

(** The loop of [PolicyInsertDummyData]: the rules are created one after
    the other, and the first failure ends the loop.  [env i] is what the
    i-th call of [PolicyCreate] reads. *)
Fixpoint createEach (s : Storage) (env : nat -> Readings) (i : nat)
    (rules : list PolicyRule) : Storage * option error :=
  match rules with
  | [] => (s, None)
  | rule :: rules' =>
      match PolicyCreate s (env i) rule with
      | (s', Err e) =>
          (s', Some (Errorf "storage.InsertDummyData: Failed to insert dummy data" e))
      | (s', Ok _) => createEach s' env (S i) rules'
      end
  end.

(** [PolicyInsertDummyData]. *)
Definition PolicyInsertDummyData (s : Storage) (built : nat -> Z)
    (env : nat -> Readings) : Storage * option error :=
  createEach s env O (dummyRules built).

(** The keys of the table: no two rows under one id, no two rows with one
    zone pattern. *)
Definition keysUnique (s : Storage) : Prop :=
  List.NoDup (List.map ID (rows (db s))) /\ List.NoDup (List.map ZonePattern (rows (db s))).

End storage.

(** ** Process configuration ([internal/config]) *)

Module config.

(** [config.DnsPolicyConfig]; the Go [map[string]struct{}] is a set of
    e-mail addresses. *)
Record DnsPolicyConfig : Type := {
  SuperAdminEmails : gset string;
  WebhookApiKey : string
}.

(** [config.AppConfig], restricted to the fields the policy engine reads
    (the storage and web-server settings play no part in resolution). *)
Record AppConfig : Type := {
  DnsPolicy : DnsPolicyConfig;
  DevMode : bool
}.

(** [config.AppData]: configuration and store.  The two loggers are the
    sink of the log events of the handlers below. *)
Record AppData : Type := {
  Config : AppConfig;
  Storage : storage.Storage
}.

(** The process environment. *)
Definition Env : Type := gmap string string.

Section Environment.

(** [helper.GetEnvStringSet] is not among the sources; the list of
    super-admin addresses is whatever it reads. *)
Variable GetEnvStringSet : Env -> string -> gset string -> string -> bool -> gset string.

(** Modelled from the spec: [helper.GetEnvString] is not among the
    sources; it yields the value of the variable, and the default
    handed to it when the variable is unset. *)
Definition GetEnvString (env : Env) (key def : string) : string :=
  match env !! key with
  | Some v => v
  | None => def
  end.

(** [GetAppConfigFromEnvironment], for the fields of [AppConfig] kept
    here.  No validation tag constrains [DnsPolicyConfig]. *)
Definition GetAppConfigFromEnvironment (env : Env) : AppConfig :=
  {| DnsPolicy :=
       {| SuperAdminEmails :=
            GetEnvStringSet env "DNS_POLICY_SUPERADMIN_EMAILS" ∅ "," true;
          WebhookApiKey := GetEnvString env "DNS_POLICY_WEBHOOK_API_KEY" "" |};
     DevMode := String.eqb (GetEnvString env "API_MODE" "production") "development" |}.

End Environment.

End config.

(** ** Identity claims ([internal/auth]) *)

Module auth.

(** Modelled from the spec: the declaration of [auth.UserClaims] is not
    among the sources.  The e-mail address is the matching key; the other
    claims (groups and the like) are carried along unread. *)
Record UserClaims : Type := {
  Email : string;
  Groups : list string
}.

(** Modelled from the spec: the construction of the super-admin flag for
    interactive callers is not among the sources; the flag is true if the
    e-mail address is a member of the configured super-admin set. *)
Definition isSuperAdmin (cfg : config.DnsPolicyConfig) (claims : UserClaims) : bool :=
  bool_decide (Email claims ∈ config.SuperAdminEmails cfg).

End auth.

(** ** Helpers ([internal/helper]) *)

Module helper.

Definition inRange (lo hi c : ascii) : bool :=
  (N_of_ascii lo <=? N_of_ascii c)%N && (N_of_ascii c <=? N_of_ascii hi)%N.

(** Lower-casing of one byte. *)
Definition toLower (c : ascii) : ascii :=
  if inRange "A" "Z" c then ascii_of_N (N_of_ascii c + 32) else c.

(** Membership in the class [[a-z0-9-]]. *)
Definition isLabelChar (c : ascii) : bool :=
  inRange "a" "z" c || inRange "0" "9" c || Ascii.eqb c "-".

Definition sanitize (c : ascii) : ascii :=
  let l := toLower c in if isLabelChar l then l else "-"%char.

Fixpoint mapBytes (f : ascii -> ascii) (s : string) : string :=
  match s with
  | EmptyString => EmptyString
  | String c s' => String (f c) (mapBytes f s')
  end.

(** Modelled from the spec: [helper.DnsMakeCompliant] is not among the
    sources.  The address is lower-cased and every character outside
    [[a-z0-9-]] is replaced by a dash, in one pass and without collapsing
    runs of dashes.  The specification leaves the treatment of tokens
    longer than 63 characters open; none is applied. *)
Definition DnsMakeCompliant (email : string) : string :=
  mapBytes sanitize email.


End helper.

(** ** The webhook entry point ([internal/routes]) *)

Module routes.

Import storage config auth.

(** *** Observable effects of a handler *)

(** What a handler does besides answering: lines written to the log, and
    reads of the rule store. *)
Inductive Event : Type :=
| LogDebug (msg : string)
| LogDebugf (format : string) (claims : UserClaims)
| LogWarnf (format : string) (err : error)
| StoreGetAll.

(** A computation that records its events in order. *)
Definition Handler (A : Type) : Type := A * list Event.

Definition ret {A : Type} (a : A) : Handler A := (a, []).

Definition bind {A B : Type} (m : Handler A) (k : A -> Handler B) : Handler B :=
  let '(a, t) := m in
  let '(b, t') := k a in
  (b, t ++ t').

Definition emit (e : Event) : Handler unit := (tt, [e]).

Notation "x <- m ;; k" := (bind m (fun x => k))
  (at level 100, m at next level, right associativity).
Notation "m ;;; k" := (bind m (fun _ => k))
  (at level 100, right associativity).

(** *** Requests and responses *)

(** The part of [*gin.Context] a handler reads: the request headers under
    their canonical names, and the outcome of decoding the JSON body into
    [auth.UserClaims]. *)
Record Context : Type := {
  Header : list (string * string);
  ShouldBindJSON : result UserClaims
}.

(** [c.GetHeader(key)]: the first value stored under [key], or the empty
    string when there is none. *)
Fixpoint GetHeader (hs : list (string * string)) (key : string) : string :=
  match hs with
  | [] => ""
  | (k, v) :: hs' => if String.eqb k key then v else GetHeader hs' key
  end.

(** Modelled from the spec: the declaration of [ZoneResponse] is not among
    the sources; it is rendered as the JSON object [{zone, zone_soa}]. *)
Record ZoneResponse : Type := {
  Zone : string;
  ZoneSOA : string
}.

(** JSON bodies written by the handler: [gin.H{"error": msg}] or the array
    of zones. *)
Inductive Body : Type :=
| ErrorBody (msg : string)
| ZonesBody (zones : list ZoneResponse).

Record Response : Type := {
  Status : Z;
  Payload : Body
}.

Definition StatusOK : Z := 200.
Definition StatusBadRequest : Z := 400.
Definition StatusUnauthorized : Z := 401.
Definition StatusInternalServerError : Z := 500.

(** *** Rule matching *)

(** Modelled from the spec: the glob matcher is not among the sources.
    [*] matches any run of characters, every other character matches
    itself, and the whole [email] has to match the whole [filter]. *)
Fixpoint globMatch (filter email : string) : bool :=
  match filter with
  | EmptyString =>
      match email with
      | EmptyString => true
      | String _ _ => false
      end
  | String p filter' =>
      if Ascii.eqb p "*"
      then
        (fix anyRun (rest : string) : bool :=
           globMatch filter' rest ||
           match rest with
           | EmptyString => false
           | String _ rest' => anyRun rest'
           end) email
      else
        match email with
        | EmptyString => false
        | String c email' => Ascii.eqb c p && globMatch filter' email'
        end
  end.

(** The glob semantics in the words of the specification, as a relation:
    a [*] stands for any run of characters, possibly empty; any other
    character of the filter stands for itself; filter and address are
    consumed together to their ends. *)
Inductive GlobMatches : string -> string -> Prop :=
| GlobEnd : GlobMatches "" ""
| GlobStar (filter run rest : string) :
    GlobMatches filter rest ->
    GlobMatches (String "*" filter) (run +:+ rest)
| GlobLiteral (c : ascii) (filter email : string) :
    c <> "*"%char ->
    GlobMatches filter email ->
    GlobMatches (String c filter) (String c email).

(** Modelled from the spec: [listUserRules] is not among the sources.  It
    loads all rules from the store on every call, fails when that read
    fails, and otherwise keeps, in the order of the store, the rules whose
    filter matches the e-mail address, or every rule for a super admin. *)
Definition listUserRules (app : AppData) (userClaims : UserClaims)
    (isSuperAdmin : bool) : Handler (result (list PolicyRule)) :=
  emit StoreGetAll ;;;
  match PolicyGetAll (Storage app) with
  | Err e => ret (Err e)
  | Ok rules =>
      ret (Ok (List.filter
                 (fun rule => isSuperAdmin
                              || globMatch (TargetUserFilter rule) (Email userClaims))
                 rules))
  end.

(** *** The handler *)

(** [verifyApiKey]: [None] is Go's [nil]. *)
Definition verifyApiKey (c : Context) (apiKey : string) : option error :=
  let authHeader := GetHeader (Header c) "Authorization" in
  let bearerPrefix := "Bearer " in
  let '(tokenString, ok) := strings.CutPrefix authHeader bearerPrefix in
  if negb ok
  then Some (ErrNew "missing or invalid Authorization Bearer header")
  else if negb (String.eqb tokenString apiKey)
  then Some (ErrNew "invalid API key provided in Authorization header")
  else None.

(** The loop over the matched rules: one response is appended per rule. *)
Definition renderZones (userDnsLabel : string) (rules : list PolicyRule)
  : list ZoneResponse :=
  fold_left
    (fun zones rule =>
       let zone := strings.ReplaceAll (ZonePattern rule) "%u" userDnsLabel in
       zones ++ [ {| Zone := zone; ZoneSOA := ZoneSoa rule |} ])
    rules [].

(** [webhookFunc(app)], the handler of [POST /v1/webhook/dns-policy]. *)
Definition webhookFunc (app : AppData) (c : Context) : Handler Response :=
  emit (LogDebug "Received webhook DNS policy request") ;;;
  match verifyApiKey c (WebhookApiKey (DnsPolicy (Config app))) with
  | Some err =>
      emit (LogWarnf "Webhook API key verification failed: %v" err) ;;;
      ret {| Status := StatusUnauthorized; Payload := ErrorBody (errorString err) |}
  | None =>
      match ShouldBindJSON c with
      | Err err =>
          emit (LogWarnf "Failed to bind JSON body: %v" err) ;;;
          ret {| Status := StatusBadRequest; Payload := ErrorBody "invalid request body" |}
      | Ok userClaimsReq =>
          emit (LogDebugf "Received user claims: %+v" userClaimsReq) ;;;
          r <- listUserRules app userClaimsReq false ;;
          match r with
          | Err _ =>
              ret {| Status := StatusInternalServerError;
                     Payload := ErrorBody "Failed to retrieve rules" |}
          | Ok rules =>
              let userDnsLabel := helper.DnsMakeCompliant (Email userClaimsReq) in
              ret {| Status := StatusOK;
                     Payload := ZonesBody (renderZones userDnsLabel rules) |}
          end
      end
  end.

(** Modelled from the spec: the interactive entry point is not among the
    sources.  It resolves the caller's zones like the webhook, from claims
    whose super-admin flag was derived from the configured set. *)
Definition interactiveRules (app : AppData) (userClaims : UserClaims)
  : Handler (result (list PolicyRule)) :=
  listUserRules app userClaims (isSuperAdmin (DnsPolicy (Config app)) userClaims).

End routes.

(** ** Sample data *)

Module Sample.

Import storage config auth routes.

(** The rules of [PolicyInsertDummyData], numbered by the store. *)
Definition personalDhbw : PolicyRule :=
  {| ID := 1;
     ZonePattern := "%u.users.dhbw.cloud";
     ZoneSoa := "users.dhbw.cloud";
     TargetUserFilter := "*@dhbw.de";
     Description := "Automatic personal zones for DHBW users";
     CreatedAt := 1700000000 |}.

Definition projectDhbw : PolicyRule :=
  {| ID := 2;
     ZonePattern := "project.dhbw.cloud";
     ZoneSoa := "project.dhbw.cloud";
     TargetUserFilter := "*@dhbw.de";
     Description := "All DHBW users can manage a common project zone";
     CreatedAt := 1700000000 |}.

Definition personalLuebeck : PolicyRule :=
  {| ID := 3;
     ZonePattern := "%u.cloud.uni-luebeck.de";
     ZoneSoa := "cloud.uni-luebeck.de";
     TargetUserFilter := "*@uni-luebeck.de";
     Description := "All Uni-Luebeck users can create subdomains";
     CreatedAt := 1700000000 |}.

(** A table that keeps its rows in another order than that of the ids. *)
Definition store : storage.Storage :=
  {| db := {| rows := [personalLuebeck; personalDhbw; projectDhbw];
              dialect := sqlite;
              fault := None |} |}.

(** The same table behind a connection that fails. *)
Definition brokenStore : storage.Storage :=
  {| db := {| rows := [personalLuebeck; personalDhbw; projectDhbw];
              dialect := sqlite;
              fault := Some "connection refused" |} |}.

Definition policy (apiKey : string) : DnsPolicyConfig :=
  {| SuperAdminEmails := {[ "root@example.org" ]}; WebhookApiKey := apiKey |}.

Definition appWith (apiKey : string) (s : storage.Storage) : AppData :=
  {| Config := {| DnsPolicy := policy apiKey; DevMode := false |};
     Storage := s |}.

Definition app : AppData := appWith "s3cret" store.

Definition claimsOf (email : string) : UserClaims :=
  {| Email := email; Groups := [] |}.

(** A webhook request with the given headers and a body naming [email]. *)
Definition request (headers : list (string * string)) (email : string) : Context :=
  {| Header := headers; ShouldBindJSON := Ok (claimsOf email) |}.

Definition authorized (email : string) : Context :=
  request [("Authorization", "Bearer s3cret")] email.

(** The caller's object handed to [PolicyUpdate]: new values in every
    column of rule 2. *)
Definition rewritten : PolicyRule :=
  {| ID := 2;
     ZonePattern := "shared.dhbw.cloud";
     ZoneSoa := "evil.example";
     TargetUserFilter := "*@lehre.dhbw.de";
     Description := "";
     CreatedAt := 42 |}.


(** A rule as a caller hands it to [PolicyCreate]: no id, no creation
    time. *)
Definition labRule : PolicyRule :=
  {| ID := 0;
     ZonePattern := "lab.dhbw.cloud";
     ZoneSoa := "dhbw.cloud";
     TargetUserFilter := "*@lab.dhbw.de";
     Description := "";
     CreatedAt := 0 |}.

(** What a call of [PolicyCreate] on [store] reads. *)
Definition readings : Readings := {| clock := 1700000500; serial := 4 |}.

(** The same table under MySQL. *)
Definition mysqlStore : storage.Storage :=
  {| db := {| rows := [personalLuebeck; personalDhbw; projectDhbw];
              dialect := mysql;
              fault := None |} |}.

(** A table that holds the third of the dummy rules only. *)
Definition luebeckOnly : storage.Storage :=
  {| db := {| rows := [personalLuebeck]; dialect := sqlite; fault := None |} |}.

(** A new table. *)
Definition emptyStore : storage.Storage :=
  {| db := {| rows := []; dialect := sqlite; fault := None |} |}.

(** Readings of the calls made on a new table: one instant, and the ids
    counted from 1. *)
Definition builtAt (i : nat) : Z := 1700000000000000000.

Definition readingsAt (i : nat) : Readings :=
  {| clock := 1700000000000000000; serial := Z.of_nat i + 1 |}.

End Sample.

(** * Properties *)

Import storage config auth routes.

(** ** Strings *)

Section StringFacts.

Lemma append_nil_l (s : string) : "" +:+ s = s.
Proof. reflexivity. Qed.

Lemma append_cons (c : ascii) (a b : string) :
  String c a +:+ b = String c (a +:+ b).
Proof. reflexivity. Qed.

Lemma append_nil_r (s : string) : s +:+ "" = s.
Proof.
  induction s as [|c s IH]; [reflexivity|].
  now rewrite append_cons, IH.
Qed.

Lemma append_assoc (a b c : string) : (a +:+ b) +:+ c = a +:+ (b +:+ c).
Proof.
  induction a as [|x a IH]; [reflexivity|].
  now rewrite !append_cons, IH.
Qed.

Lemma length_append (a b : string) :
  String.length (a +:+ b) = (String.length a + String.length b)%nat.
Proof.
  induction a as [|x a IH]; [reflexivity|].
  rewrite append_cons. simpl. now rewrite IH.
Qed.

Lemma HasPrefix_app (prefix rest : string) :
  strings.HasPrefix (prefix +:+ rest) prefix = true.
Proof.
  induction prefix as [|p prefix IH]; [reflexivity|].
  rewrite append_cons. simpl. now rewrite Ascii.eqb_refl, IH.
Qed.

Lemma HasPrefix_split (s prefix : string) :
  strings.HasPrefix s prefix = true ->
  s = prefix +:+ strings.drop (String.length prefix) s.
Proof.
  revert s; induction prefix as [|p prefix IH]; intros s H.
  - reflexivity.
  - destruct s as [|c s]; [discriminate|].
    simpl in H. apply andb_prop in H as [Hc Hs].
    apply Ascii.eqb_eq in Hc; subst c.
    rewrite append_cons. simpl. f_equal. now apply IH.
Qed.

Lemma drop_app (prefix rest : string) :
  strings.drop (String.length prefix) (prefix +:+ rest) = rest.
Proof.
  induction prefix as [|p prefix IH]; [reflexivity|].
  rewrite append_cons. simpl. exact IH.
Qed.

Lemma CutPrefix_true_iff (s prefix token : string) :
  strings.CutPrefix s prefix = (token, true) <-> s = prefix +:+ token.
Proof.
  unfold strings.CutPrefix. split.
  - destruct (strings.HasPrefix s prefix) eqn:E; intros H; inversion H; subst.
    now apply HasPrefix_split.
  - intros ->. now rewrite HasPrefix_app, drop_app.
Qed.

Lemma append_inj_l (a b c : string) : a +:+ b = a +:+ c -> b = c.
Proof.
  induction a as [|x a IH]; [trivial|].
  rewrite !append_cons. intros H. injection H. exact IH.
Qed.

End StringFacts.

(** ** Credential verification *)

(** The verifier accepts exactly the header made of the prefix and the key. *)
Lemma verifyApiKey_None_iff (c : Context) (apiKey : string) :
  verifyApiKey c apiKey = None <->
  GetHeader (Header c) "Authorization" = "Bearer " +:+ apiKey.
Proof.
  unfold verifyApiKey.
  set (h := GetHeader (Header c) "Authorization").
  destruct (strings.CutPrefix h "Bearer ") as [token ok] eqn:E.
  destruct ok; cbn [negb].
  - apply CutPrefix_true_iff in E. subst h. rewrite E.
    destruct (String.eqb token apiKey) eqn:K; cbn [negb].
    + apply String.eqb_eq in K. subst. tauto.
    + apply String.eqb_neq in K. split; [discriminate|].
      intros H. exfalso. apply K. now apply append_inj_l in H.
  - split; [discriminate|]. intros H.
    assert (X : strings.CutPrefix h "Bearer " = (apiKey, true))
      by now apply CutPrefix_true_iff.
    congruence.
Qed.

(** What the handler does with a request the verifier refuses. *)
Lemma webhookFunc_refused (app : AppData) (c : Context) (err : error) :
  verifyApiKey c (WebhookApiKey (DnsPolicy (Config app))) = Some err ->
  webhookFunc app c =
    ({| Status := StatusUnauthorized; Payload := ErrorBody (errorString err) |},
     [LogDebug "Received webhook DNS policy request";
      LogWarnf "Webhook API key verification failed: %v" err]).
Proof. intros H. unfold webhookFunc. rewrite H. reflexivity. Qed.

(** What the handler does with a request the verifier lets through. *)
Lemma webhookFunc_accepted (app : AppData) (c : Context) (claims : UserClaims) :
  verifyApiKey c (WebhookApiKey (DnsPolicy (Config app))) = None ->
  ShouldBindJSON c = Ok claims ->
  webhookFunc app c =
    match PolicyGetAll (Storage app) with
    | Err _ =>
        ({| Status := StatusInternalServerError;
            Payload := ErrorBody "Failed to retrieve rules" |},
         [LogDebug "Received webhook DNS policy request";
          LogDebugf "Received user claims: %+v" claims;
          StoreGetAll])
    | Ok rules =>
        ({| Status := StatusOK;
            Payload := ZonesBody
              (renderZones (helper.DnsMakeCompliant (Email claims))
                 (List.filter
                    (fun rule => globMatch (TargetUserFilter rule) (Email claims))
                    rules)) |},
         [LogDebug "Received webhook DNS policy request";
          LogDebugf "Received user claims: %+v" claims;
          StoreGetAll])
    end.
Proof.
  intros Hk Hb. unfold webhookFunc, listUserRules. rewrite Hk, Hb.
  destruct (PolicyGetAll (Storage app)); reflexivity.
Qed.

(** C3. The shared-secret verifier succeeds if and only if the
    Authorization header is exactly the prefix "Bearer " followed by the
    configured secret, byte for byte; for every other header value, the
    absent header (read as the empty string) included, the webhook answers
    401 and never reads the rule store. *)
Theorem webhook_accepts_exactly_bearer_secret (app : AppData) (c : Context) :
  let apiKey := WebhookApiKey (DnsPolicy (Config app)) in
  let authHeader := GetHeader (Header c) "Authorization" in
  (verifyApiKey c apiKey = None <-> authHeader = "Bearer " +:+ apiKey) /\
  GetHeader [] "Authorization" <> "Bearer " +:+ apiKey /\
  (authHeader <> "Bearer " +:+ apiKey ->
   Status (fst (webhookFunc app c)) = StatusUnauthorized /\
   ~ In StoreGetAll (snd (webhookFunc app c))).
Proof.
  cbv zeta. split; [apply verifyApiKey_None_iff|]. split; [discriminate|].
  intros Hne.
  destruct (verifyApiKey c (WebhookApiKey (DnsPolicy (Config app)))) as [err|] eqn:E.
  - rewrite (webhookFunc_refused _ _ _ E). split; [reflexivity|].
    simpl. intros [H|[H|[]]]; discriminate.
  - apply verifyApiKey_None_iff in E. contradiction.
Qed.

Lemma webhook_accepts_exactly_bearer_secret_witness :
  Status (fst (webhookFunc Sample.app (Sample.request [] "bob@uni-luebeck.de")))
    = StatusUnauthorized /\
  ~ In StoreGetAll
      (snd (webhookFunc Sample.app (Sample.request [] "bob@uni-luebeck.de"))).
Proof.
  apply (proj2 (proj2 (webhook_accepts_exactly_bearer_secret
                         Sample.app (Sample.request [] "bob@uni-luebeck.de")))).
  discriminate.
Defined.

(** C10. When the webhook key variable is unset, the configured key is the
    empty string, and [verifyApiKey] then accepts any request whose
    Authorization header is exactly "Bearer ": the request is not answered
    401, and with a well-formed body the rule store is read. *)
Theorem empty_key_accepts_bare_bearer
    (GetEnvStringSet : Env -> string -> gset string -> string -> bool -> gset string)
    (env : Env) (s : storage.Storage) (c : Context) :
  env !! "DNS_POLICY_WEBHOOK_API_KEY" = None ->
  GetHeader (Header c) "Authorization" = "Bearer " ->
  let app := {| Config := GetAppConfigFromEnvironment GetEnvStringSet env;
                Storage := s |} in
  WebhookApiKey (DnsPolicy (Config app)) = "" /\
  verifyApiKey c (WebhookApiKey (DnsPolicy (Config app))) = None /\
  Status (fst (webhookFunc app c)) <> StatusUnauthorized /\
  (forall claims, ShouldBindJSON c = Ok claims ->
                  In StoreGetAll (snd (webhookFunc app c))).
Proof.
  intros Hunset Hhdr app.
  assert (Hkey : WebhookApiKey (DnsPolicy (Config app)) = "").
  { subst app. simpl. unfold GetEnvString. now rewrite Hunset. }
  assert (Hok : verifyApiKey c (WebhookApiKey (DnsPolicy (Config app))) = None).
  { apply verifyApiKey_None_iff. rewrite Hkey, Hhdr. reflexivity. }
  split; [exact Hkey|]. split; [exact Hok|]. split.
  - unfold webhookFunc. rewrite Hok.
    destruct (ShouldBindJSON c) as [claims|e]; [|discriminate].
    unfold listUserRules.
    destruct (PolicyGetAll (Storage app)); discriminate.
  - intros claims Hb. rewrite (webhookFunc_accepted _ _ _ Hok Hb).
    destruct (PolicyGetAll (Storage app)); simpl; tauto.
Qed.

Lemma empty_key_accepts_bare_bearer_witness :
  let c := Sample.request [("Authorization", "Bearer ")] "alice@dhbw.de" in
  let app := {| Config := GetAppConfigFromEnvironment (fun _ _ def _ _ => def) ∅;
                Storage := Sample.store |} in
  verifyApiKey c (WebhookApiKey (DnsPolicy (Config app))) = None /\
  In StoreGetAll (snd (webhookFunc app c)).
Proof.
  intros c app.
  pose proof (empty_key_accepts_bare_bearer
                (fun _ _ def _ _ => def) ∅ Sample.store c eq_refl eq_refl) as H.
  split.
  - exact (proj1 (proj2 H)).
  - exact (proj2 (proj2 (proj2 H)) (Sample.claimsOf "alice@dhbw.de") eq_refl).
Defined.

(** ** Refused requests *)

(** The two refusals of the verifier reach the caller with different
    bodies: a request without the header and a request with a wrong key are
    both answered 401, but each with the verifier's own message. *)
Lemma webhook_refusals_distinguishable :
  let missing := webhookFunc Sample.app (Sample.request [] "alice@dhbw.de") in
  let wrong := webhookFunc Sample.app
                 (Sample.request [("Authorization", "Bearer guess")] "alice@dhbw.de") in
  Status (fst missing) = StatusUnauthorized /\
  Status (fst wrong) = StatusUnauthorized /\
  Payload (fst missing) = ErrorBody "missing or invalid Authorization Bearer header" /\
  Payload (fst wrong) = ErrorBody "invalid API key provided in Authorization header" /\
  Payload (fst missing) <> Payload (fst wrong).
Proof. cbv zeta. repeat split. discriminate. Qed.

(** C2, amended. Every webhook request that fails credential verification
    is answered 401 without reading the rule store, and the body carries the
    verifier's error message, the same text that is logged: "missing or
    invalid Authorization Bearer header" when the header does not start with
    "Bearer " (an absent header included), "invalid API key provided in
    Authorization header" when it does and the key differs. *)
Theorem webhook_refusal_reports_verifier_error
    (app : AppData) (c : Context) (err : error) :
  verifyApiKey c (WebhookApiKey (DnsPolicy (Config app))) = Some err ->
  webhookFunc app c =
    ({| Status := StatusUnauthorized; Payload := ErrorBody (errorString err) |},
     [LogDebug "Received webhook DNS policy request";
      LogWarnf "Webhook API key verification failed: %v" err]) /\
  errorString err =
    (if strings.HasPrefix (GetHeader (Header c) "Authorization") "Bearer "
     then "invalid API key provided in Authorization header"
     else "missing or invalid Authorization Bearer header").
Proof.
  intros H. split; [now apply webhookFunc_refused|].
  revert H. unfold verifyApiKey, strings.CutPrefix.
  destruct (strings.HasPrefix (GetHeader (Header c) "Authorization") "Bearer ");
    cbn [negb].
  - destruct (String.eqb _ _); cbn [negb]; intros H; inversion H; reflexivity.
  - intros H; inversion H; reflexivity.
Qed.

Lemma webhook_refusal_reports_verifier_error_witness :
  webhookFunc Sample.app
      (Sample.request [("Authorization", "Bearer guess")] "alice@dhbw.de") =
    ({| Status := StatusUnauthorized;
        Payload := ErrorBody "invalid API key provided in Authorization header" |},
     [LogDebug "Received webhook DNS policy request";
      LogWarnf "Webhook API key verification failed: %v"
        (ErrNew "invalid API key provided in Authorization header")]).
Proof.
  exact (proj1 (webhook_refusal_reports_verifier_error Sample.app
                  (Sample.request [("Authorization", "Bearer guess")] "alice@dhbw.de")
                  (ErrNew "invalid API key provided in Authorization header")
                  eq_refl)).
Defined.

(** ** Placeholder substitution *)

Section Placeholder.

Variable label : string.

Let free (piece : string) : Prop := strings.Contains piece "%u" = false.

Lemma replace_at_placeholder (rest : string) :
  strings.replaceFrom O ("%u" +:+ rest) "%u" label
  = label +:+ strings.replaceFrom O rest "%u" label.
Proof. reflexivity. Qed.

Lemma Contains_cons_false (c : ascii) (s : string) :
  strings.Contains (String c s) "%u" = false ->
  strings.HasPrefix (String c s) "%u" = false /\ strings.Contains s "%u" = false.
Proof.
  intros H. change (strings.Contains (String c s) "%u")
    with (strings.HasPrefix (String c s) "%u" || strings.Contains s "%u") in H.
  now apply orb_false_elim in H.
Qed.

(** No occurrence starts inside a piece that is followed by one: the two
    bytes of the placeholder differ. *)
Lemma no_prefix_before_placeholder (c : ascii) (piece rest : string) :
  strings.HasPrefix (String c piece) "%u" = false ->
  strings.HasPrefix (String c (piece +:+ "%u" +:+ rest)) "%u" = false.
Proof.
  cbn [strings.HasPrefix]. destruct (Ascii.eqb c "%"); [|reflexivity].
  destruct piece as [|d piece]; [reflexivity|].
  rewrite append_cons. cbn [strings.HasPrefix andb].
  now rewrite !andb_true_r.
Qed.

Lemma replace_free_then_placeholder (piece rest : string) :
  free piece ->
  strings.replaceFrom O (piece +:+ "%u" +:+ rest) "%u" label
  = piece +:+ label +:+ strings.replaceFrom O rest "%u" label.
Proof.
  unfold free. induction piece as [|c piece IH]; intros H.
  - rewrite !append_nil_l. apply replace_at_placeholder.
  - apply Contains_cons_false in H as [Hp Hc].
    rewrite !(append_cons c piece).
    cbn [strings.replaceFrom].
    rewrite (no_prefix_before_placeholder _ _ _ Hp).
    f_equal. now apply IH.
Qed.

Lemma replace_free (piece : string) :
  free piece -> strings.replaceFrom O piece "%u" label = piece.
Proof.
  unfold free. induction piece as [|c piece IH]; intros H; [reflexivity|].
  apply Contains_cons_false in H as [Hp Hc].
  cbn [strings.replaceFrom]. rewrite Hp. f_equal. now apply IH.
Qed.

(** Replacing the placeholder in pieces joined by it joins them by the
    label instead. *)
Lemma ReplaceAll_Join (pieces : list string) :
  Forall free pieces ->
  strings.ReplaceAll (strings.Join pieces "%u") "%u" label
  = strings.Join pieces label.
Proof.
  change (strings.ReplaceAll (strings.Join pieces "%u") "%u" label)
    with (strings.replaceFrom O (strings.Join pieces "%u") "%u" label).
  induction pieces as [|piece [|next pieces] IH]; intros H.
  - reflexivity.
  - apply replace_free. now inversion H.
  - inversion H as [|? ? Hpiece Hrest]; subst.
    change (strings.Join (piece :: next :: pieces) "%u")
      with (piece +:+ "%u" +:+ strings.Join (next :: pieces) "%u").
    change (strings.Join (piece :: next :: pieces) label)
      with (piece +:+ label +:+ strings.Join (next :: pieces) label).
    rewrite (replace_free_then_placeholder _ _ Hpiece).
    now rewrite (IH Hrest).
Qed.

Lemma Join_cons_head (c : ascii) (piece : string) (pieces : list string) (sep : string) :
  strings.Join (String c piece :: pieces) sep
  = String c (strings.Join (piece :: pieces) sep).
Proof. destruct pieces; reflexivity. Qed.

Lemma Join_head_prefix (piece : string) (pieces : list string) (sep : string) :
  exists rest, strings.Join (piece :: pieces) sep = piece +:+ rest.
Proof.
  destruct pieces as [|next pieces].
  - exists "". simpl. now rewrite append_nil_r.
  - eexists. reflexivity.
Qed.

Lemma no_prefix_in_head (c : ascii) (piece rest : string) :
  strings.HasPrefix (String c (piece +:+ rest)) "%u" = false ->
  strings.HasPrefix (String c piece) "%u" = false.
Proof.
  cbn [strings.HasPrefix]. destruct (Ascii.eqb c "%"); [|reflexivity].
  destruct piece as [|d piece]; [reflexivity|].
  rewrite append_cons. cbn [strings.HasPrefix andb].
  now rewrite !andb_true_r.
Qed.

Lemma HasPrefix_placeholder_inv (s : string) :
  strings.HasPrefix s "%u" = true -> exists rest, s = "%u" +:+ rest.
Proof.
  intros H. apply HasPrefix_split in H. eexists. exact H.
Qed.

Lemma splitFrom_placeholder (n : nat) : forall s : string,
  (String.length s <= n)%nat ->
  strings.Join (strings.Split s "%u") "%u" = s /\
  Forall free (strings.Split s "%u").
Proof.
  unfold strings.Split, free.
  induction n as [|n IH]; intros s Hlen.
  - destruct s; [|simpl in Hlen; lia]. split; [reflexivity|].
    repeat constructor.
  - destruct s as [|a s']; [split; [reflexivity|repeat constructor]|].
    cbn [strings.splitFrom].
    destruct (strings.HasPrefix (String a s') "%u") eqn:E.
    + apply HasPrefix_placeholder_inv in E as [rest E].
      change ("%u" +:+ rest) with (String "%" (String "u" rest)) in E.
      injection E as -> ->.
      change (strings.splitFrom (Nat.pred (String.length "%u")) (String "u" rest) "%u")
        with (strings.splitFrom O rest "%u").
      destruct (IH rest) as [HJ HF]; [simpl in Hlen; lia|].
      destruct (strings.splitFrom O rest "%u") as [piece pieces].
      split.
      * change (strings.Join ("" :: piece :: pieces) "%u")
          with ("%u" +:+ strings.Join (piece :: pieces) "%u").
        now rewrite HJ.
      * constructor; [reflexivity|exact HF].
    + destruct (IH s') as [HJ HF]; [simpl in Hlen; lia|].
      destruct (strings.splitFrom O s' "%u") as [piece pieces].
      split.
      * rewrite Join_cons_head. now rewrite HJ.
      * pose proof (Forall_inv HF) as Hpiece. cbv beta in Hpiece.
        constructor; [|exact (Forall_inv_tail HF)].
        change (strings.Contains (String a piece) "%u")
          with (strings.HasPrefix (String a piece) "%u"
                || strings.Contains piece "%u").
        rewrite Hpiece, orb_false_r.
        destruct (Join_head_prefix piece pieces "%u") as [rest Hrest'].
        rewrite Hrest' in HJ. subst s'.
        now apply no_prefix_in_head in E.
Qed.

(** Every pattern is its placeholder-free pieces joined by the
    placeholder. *)
Lemma Split_placeholder (s : string) :
  strings.Join (strings.Split s "%u") "%u" = s /\
  Forall free (strings.Split s "%u").
Proof. apply (splitFrom_placeholder (String.length s)). lia. Qed.

End Placeholder.

(** ** Rendering *)

Lemma renderZones_app (label : string) (rules : list PolicyRule)
    (done : list ZoneResponse) :
  fold_left
    (fun zones rule =>
       zones ++ [ {| Zone := strings.ReplaceAll (ZonePattern rule) "%u" label;
                     ZoneSOA := ZoneSoa rule |} ])
    rules done
  = done ++ renderZones label rules.
Proof.
  unfold renderZones. revert done.
  induction rules as [|rule rules IH]; intros done; cbn [fold_left].
  - now rewrite app_nil_r.
  - rewrite IH. rewrite (IH ([] ++ _)). now rewrite <- app_assoc.
Qed.

(** The loop appends one response per rule, in the order of the rules. *)
Lemma renderZones_cons (label : string) (rule : PolicyRule) (rules : list PolicyRule) :
  renderZones label (rule :: rules)
  = {| Zone := strings.ReplaceAll (ZonePattern rule) "%u" label;
       ZoneSOA := ZoneSoa rule |} :: renderZones label rules.
Proof.
  unfold renderZones at 1. cbn [fold_left]. now rewrite renderZones_app.
Qed.

Lemma renderZones_map (label : string) (rules : list PolicyRule) :
  renderZones label rules
  = List.map (fun rule =>
                {| Zone := strings.ReplaceAll (ZonePattern rule) "%u" label;
                   ZoneSOA := ZoneSoa rule |}) rules.
Proof.
  induction rules as [|rule rules IH]; [reflexivity|].
  rewrite renderZones_cons, IH. reflexivity.
Qed.

Lemma listUserRules_webhook (app : AppData) (claims : UserClaims) :
  fst (listUserRules app claims false)
  = match PolicyGetAll (Storage app) with
    | Ok all =>
        Ok (List.filter
              (fun rule => globMatch (TargetUserFilter rule) (Email claims)) all)
    | Err e => Err e
    end.
Proof.
  unfold listUserRules. destruct (PolicyGetAll (Storage app)); reflexivity.
Qed.

(** C4. For every rule the webhook matched and every identity, the Zone
    Response has [zone] equal to the rule's zonePattern with every
    occurrence of the two-character token %u replaced by the DNS token of
    the identity's e-mail address: the pattern splits around its
    occurrences of %u into pieces that contain none, and the zone is those
    pieces joined by the token; a pattern without %u is returned as it is.
    [zoneSoa] is the rule's zoneSoa, unchanged. *)
Theorem webhook_renders_every_placeholder
    (app : AppData) (c : Context) (claims : UserClaims) (rules : list PolicyRule) :
  verifyApiKey c (WebhookApiKey (DnsPolicy (Config app))) = None ->
  ShouldBindJSON c = Ok claims ->
  fst (listUserRules app claims false) = Ok rules ->
  exists zones,
    fst (webhookFunc app c) = {| Status := StatusOK; Payload := ZonesBody zones |} /\
    Forall2
      (fun rule zone =>
         let pieces := strings.Split (ZonePattern rule) "%u" in
         strings.Join pieces "%u" = ZonePattern rule /\
         Forall (fun piece => strings.Contains piece "%u" = false) pieces /\
         Zone zone = strings.Join pieces (helper.DnsMakeCompliant (Email claims)) /\
         (strings.Contains (ZonePattern rule) "%u" = false ->
          Zone zone = ZonePattern rule) /\
         ZoneSOA zone = ZoneSoa rule)
      rules zones.
Proof.
  intros Hk Hb Hr.
  exists (renderZones (helper.DnsMakeCompliant (Email claims)) rules). split.
  - rewrite (webhookFunc_accepted _ _ _ Hk Hb).
    rewrite listUserRules_webhook in Hr.
    destruct (PolicyGetAll (Storage app)); [|discriminate].
    injection Hr as <-. reflexivity.
  - clear. rewrite renderZones_map.
    induction rules as [|rule rules IH]; [constructor|].
    simpl. constructor; [|exact IH].
    cbv zeta. cbn [Zone ZoneSOA].
    destruct (Split_placeholder (ZonePattern rule)) as [HJ HF].
    split; [exact HJ|]. split; [exact HF|]. split; [|split; [|reflexivity]].
    + rewrite <- HJ at 1. now apply ReplaceAll_Join.
    + intros Hfree.
      apply (ReplaceAll_Join _ [ZonePattern rule]).
      constructor; [exact Hfree|constructor].
Qed.

Lemma webhook_renders_every_placeholder_witness :
  exists zones,
    fst (webhookFunc Sample.app (Sample.authorized "alice@dhbw.de"))
      = {| Status := StatusOK; Payload := ZonesBody zones |} /\
    Forall2
      (fun rule zone =>
         let pieces := strings.Split (ZonePattern rule) "%u" in
         strings.Join pieces "%u" = ZonePattern rule /\
         Forall (fun piece => strings.Contains piece "%u" = false) pieces /\
         Zone zone = strings.Join pieces
                       (helper.DnsMakeCompliant (Email (Sample.claimsOf "alice@dhbw.de"))) /\
         (strings.Contains (ZonePattern rule) "%u" = false ->
          Zone zone = ZonePattern rule) /\
         ZoneSOA zone = ZoneSoa rule)
      [Sample.personalDhbw; Sample.projectDhbw] zones.
Proof.
  apply (webhook_renders_every_placeholder Sample.app
           (Sample.authorized "alice@dhbw.de") (Sample.claimsOf "alice@dhbw.de")
           [Sample.personalDhbw; Sample.projectDhbw]);
    reflexivity.
Defined.

(** ** Glob matching *)

Lemma globMatch_star (filter email : string) :
  globMatch (String "*" filter) email
  = globMatch filter email
    || match email with
       | EmptyString => false
       | String _ email' => globMatch (String "*" filter) email'
       end.
Proof. destruct email; reflexivity. Qed.

Lemma globMatch_literal (c : ascii) (filter email : string) :
  c <> "*"%char ->
  globMatch (String c filter) email
  = match email with
    | EmptyString => false
    | String d email' => Ascii.eqb d c && globMatch filter email'
    end.
Proof.
  intros Hc. apply Ascii.eqb_neq in Hc.
  cbn [globMatch]. rewrite Hc. reflexivity.
Qed.

Lemma GlobMatches_star_inv (filter email : string) :
  GlobMatches (String "*" filter) email ->
  exists run rest, email = run +:+ rest /\ GlobMatches filter rest.
Proof.
  intros H. inversion H; subst.
  - eauto.
  - congruence.
Qed.

Lemma globMatch_sound (filter : string) : forall email : string,
  globMatch filter email = true -> GlobMatches filter email.
Proof.
  induction filter as [|p filter IH]; intros email H.
  - destruct email; [constructor|discriminate].
  - destruct (ascii_dec p "*") as [->|Hp].
    + induction email as [|c email IHe].
      * rewrite globMatch_star, orb_false_r in H.
        apply (GlobStar filter "" ""). now apply IH.
      * rewrite globMatch_star in H. apply orb_prop in H as [H|H].
        -- apply (GlobStar filter "" (String c email)). now apply IH.
        -- apply IHe in H. apply GlobMatches_star_inv in H as (run & rest & -> & Hm).
           apply (GlobStar filter (String c run) rest Hm).
    + rewrite (globMatch_literal _ _ _ Hp) in H.
      destruct email as [|d email]; [discriminate|].
      apply andb_prop in H as [Hd Hm]. apply Ascii.eqb_eq in Hd. subst d.
      constructor; [exact Hp|now apply IH].
Qed.

Lemma globMatch_complete (filter email : string) :
  GlobMatches filter email -> globMatch filter email = true.
Proof.
  induction 1 as [|filter run rest _ IH|c filter email Hc _ IH].
  - reflexivity.
  - induction run as [|c run IHrun].
    + rewrite append_nil_l, globMatch_star, IH. reflexivity.
    + rewrite append_cons, globMatch_star, IHrun. apply orb_true_r.
  - rewrite (globMatch_literal _ _ _ Hc), Ascii.eqb_refl, IH. reflexivity.
Qed.

(** The matcher decides the glob relation. *)
Lemma globMatch_iff (filter email : string) :
  globMatch filter email = true <-> GlobMatches filter email.
Proof. split; [apply globMatch_sound|apply globMatch_complete]. Qed.

(** C5. For all e-mail addresses and glob filters, the matcher called by
    the webhook returns a stored rule if and only if the address fully
    matches the rule's filter under glob semantics (a star matches any run
    of characters, every other character matches literally and
    case-sensitively, and the whole address must match the whole pattern):
    alice@dhbw.de matches *@dhbw.de, while alice@dhbw.de.evil.com and
    alice@DHBW.de do not. *)
Theorem webhook_matcher_is_full_glob_match
    (app : AppData) (claims : UserClaims) (all : list PolicyRule) :
  PolicyGetAll (Storage app) = Ok all ->
  (exists matched,
     fst (listUserRules app claims false) = Ok matched /\
     forall rule,
       In rule matched <->
       In rule all /\ GlobMatches (TargetUserFilter rule) (Email claims)) /\
  GlobMatches "*@dhbw.de" "alice@dhbw.de" /\
  ~ GlobMatches "*@dhbw.de" "alice@dhbw.de.evil.com" /\
  ~ GlobMatches "*@dhbw.de" "alice@DHBW.de".
Proof.
  intros Hall. split; [|split; [|split]].
  - rewrite listUserRules_webhook, Hall. eexists. split; [reflexivity|].
    intros rule. rewrite filter_In, globMatch_iff. reflexivity.
  - now apply globMatch_iff.
  - intros H. apply globMatch_iff in H. discriminate.
  - intros H. apply globMatch_iff in H. discriminate.
Qed.

Lemma webhook_matcher_is_full_glob_match_witness :
  exists matched,
    fst (listUserRules Sample.app (Sample.claimsOf "alice@dhbw.de") false) = Ok matched /\
    forall rule,
      In rule matched <->
      In rule [Sample.personalDhbw; Sample.projectDhbw; Sample.personalLuebeck] /\
      GlobMatches (TargetUserFilter rule) (Email (Sample.claimsOf "alice@dhbw.de")).
Proof.
  exact (proj1 (webhook_matcher_is_full_glob_match Sample.app
                  (Sample.claimsOf "alice@dhbw.de")
                  [Sample.personalDhbw; Sample.projectDhbw; Sample.personalLuebeck]
                  eq_refl)).
Defined.

(** ** Super admins *)

Lemma filter_all {A : Type} (f : A -> bool) (l : list A) :
  (forall x, f x = true) -> List.filter f l = l.
Proof.
  intros Hf. induction l as [|x l IH]; [reflexivity|].
  simpl. now rewrite Hf, IH.
Qed.

(** The webhook does not apply the super-admin override: an address of
    the configured super-admin set that no filter matches is answered the
    empty list although the store holds three rules. *)
Lemma webhook_ignores_super_admin_set :
  "root@example.org" ∈ SuperAdminEmails (DnsPolicy (Config Sample.app)) /\
  PolicyGetAll (Storage Sample.app)
    = Ok [Sample.personalDhbw; Sample.projectDhbw; Sample.personalLuebeck] /\
  fst (webhookFunc Sample.app (Sample.authorized "root@example.org"))
    = {| Status := StatusOK; Payload := ZonesBody [] |}.
Proof.
  split; [|split; reflexivity].
  vm_compute. reflexivity.
Qed.

(** C1, amended. For any rule set and any identity whose e-mail address is
    in the configured super-admin set, the match operation called with the
    super-admin flag derived from that set returns every stored rule,
    whatever the rules' filters.  The webhook entry point calls the match
    operation with the flag fixed to false: its answer does not depend on
    the super-admin set, and it matches by filter alone. *)
Theorem super_admin_override_outside_webhook (app : AppData) (claims : UserClaims) :
  Email claims ∈ SuperAdminEmails (DnsPolicy (Config app)) ->
  fst (interactiveRules app claims) = PolicyGetAll (Storage app) /\
  fst (listUserRules app claims true) = PolicyGetAll (Storage app) /\
  (forall (c : Context) (admins : gset string),
     webhookFunc
       {| Config :=
            {| DnsPolicy :=
                 {| SuperAdminEmails := admins;
                    WebhookApiKey := WebhookApiKey (DnsPolicy (Config app)) |};
               DevMode := DevMode (Config app) |};
          Storage := Storage app |} c
     = webhookFunc app c) /\
  (forall all,
     PolicyGetAll (Storage app) = Ok all ->
     fst (listUserRules app claims false)
     = Ok (List.filter
             (fun rule => globMatch (TargetUserFilter rule) (Email claims)) all)).
Proof.
  intros Hadmin.
  assert (Hall : fst (listUserRules app claims true) = PolicyGetAll (Storage app)).
  { unfold listUserRules. destruct (PolicyGetAll (Storage app)) as [all|e];
      [|reflexivity].
    simpl. f_equal. now apply filter_all. }
  split; [|split; [exact Hall|split]].
  - unfold interactiveRules, isSuperAdmin.
    rewrite bool_decide_eq_true_2 by exact Hadmin. exact Hall.
  - intros c admins. reflexivity.
  - intros all Hget. rewrite listUserRules_webhook, Hget. reflexivity.
Qed.

Lemma super_admin_override_outside_webhook_witness :
  fst (interactiveRules Sample.app (Sample.claimsOf "root@example.org"))
  = PolicyGetAll (Storage Sample.app).
Proof.
  refine (proj1 (super_admin_override_outside_webhook Sample.app
                   (Sample.claimsOf "root@example.org") _)).
  vm_compute. reflexivity.
Defined.

(** ** The rule store *)

Section Ordering.

Lemma insertById_Permutation (r : PolicyRule) (l : list PolicyRule) :
  Permutation (r :: l) (insertById r l).
Proof.
  induction l as [|x l IH]; simpl; [reflexivity|].
  destruct (ID r <=? ID x); [reflexivity|].
  rewrite perm_swap. now constructor.
Qed.

Lemma orderByIdAsc_Permutation (l : list PolicyRule) :
  Permutation l (orderByIdAsc l).
Proof.
  induction l as [|r l IH]; simpl; [constructor|].
  rewrite <- insertById_Permutation. now constructor.
Qed.

Lemma insertById_sorted (r : PolicyRule) (l : list PolicyRule) :
  StronglySorted ascendingById l ->
  StronglySorted ascendingById (insertById r l).
Proof.
  induction 1 as [|x l Hl IH Hx]; simpl.
  - repeat constructor.
  - destruct (ID r <=? ID x) eqn:E.
    + apply Z.leb_le in E. constructor; [now constructor|].
      constructor; [exact E|].
      eapply List.Forall_impl; [|exact Hx]. unfold ascendingById. intros; lia.
    + apply Z.leb_gt in E. constructor; [exact IH|].
      eapply Permutation_Forall; [apply insertById_Permutation|].
      constructor; [unfold ascendingById; lia|exact Hx].
Qed.

Lemma orderByIdAsc_sorted (l : list PolicyRule) :
  StronglySorted ascendingById (orderByIdAsc l).
Proof.
  induction l as [|r l IH]; simpl; [constructor|].
  now apply insertById_sorted.
Qed.

Lemma filter_sorted (f : PolicyRule -> bool) (l : list PolicyRule) :
  StronglySorted ascendingById l ->
  StronglySorted ascendingById (List.filter f l).
Proof.
  induction 1 as [|x l Hl IH Hx]; simpl; [constructor|].
  destruct (f x); [|exact IH].
  constructor; [exact IH|].
  apply List.Forall_forall. intros y Hy. apply filter_In in Hy as [Hy _].
  revert y Hy. now apply List.Forall_forall.
Qed.

End Ordering.

Lemma PolicyGetAll_healthy (s : storage.Storage) :
  fault (db s) = None -> PolicyGetAll s = Ok (orderByIdAsc (rows (db s))).
Proof. intros H. unfold PolicyGetAll, dbOrderIdAscFind. now rewrite H. Qed.

Lemma PolicyGetAll_faulty (s : storage.Storage) (msg : string) :
  fault (db s) = Some msg ->
  PolicyGetAll s
  = Err (Errorf "storage.GetAll: Failed to retrieve rules" (ErrDriver msg)).
Proof. intros H. unfold PolicyGetAll, dbOrderIdAscFind. now rewrite H. Qed.

(** C7. If the read of all rules fails during a webhook resolution, the
    response is the server error 500 with an error body: it carries no
    zone list, and in particular is not the empty list with status 200
    that stands for "no rules". *)
Theorem store_failure_is_server_error
    (app : AppData) (c : Context) (claims : UserClaims) (msg : string) :
  fault (db (Storage app)) = Some msg ->
  verifyApiKey c (WebhookApiKey (DnsPolicy (Config app))) = None ->
  ShouldBindJSON c = Ok claims ->
  (exists e, PolicyGetAll (Storage app) = Err e) /\
  In StoreGetAll (snd (webhookFunc app c)) /\
  fst (webhookFunc app c)
    = {| Status := StatusInternalServerError;
         Payload := ErrorBody "Failed to retrieve rules" |} /\
  (forall zones, Payload (fst (webhookFunc app c)) <> ZonesBody zones) /\
  Status (fst (webhookFunc app c)) <> StatusOK.
Proof.
  intros Hf Hk Hb.
  rewrite (webhookFunc_accepted _ _ _ Hk Hb), (PolicyGetAll_faulty _ _ Hf).
  split; [eauto|]. split; [simpl; tauto|]. split; [reflexivity|].
  split; [intros zones|]; discriminate.
Qed.

Lemma store_failure_is_server_error_witness :
  fst (webhookFunc (Sample.appWith "s3cret" Sample.brokenStore)
         (Sample.authorized "alice@dhbw.de"))
  = {| Status := StatusInternalServerError;
       Payload := ErrorBody "Failed to retrieve rules" |}.
Proof.
  exact (proj1 (proj2 (proj2
    (store_failure_is_server_error
       (Sample.appWith "s3cret" Sample.brokenStore)
       (Sample.authorized "alice@dhbw.de") (Sample.claimsOf "alice@dhbw.de")
       "connection refused" eq_refl eq_refl eq_refl)))).
Defined.

(** C8. For every state of a healthy rule store, [PolicyGetAll] returns
    the stored rules ordered ascending by id, and the zone list of the
    webhook keeps that order: the matched rules are in ascending order of
    id, and the i-th Zone Response is rendered from the i-th matched
    rule. *)
Theorem webhook_zones_follow_ascending_ids
    (app : AppData) (c : Context) (claims : UserClaims) :
  fault (db (Storage app)) = None ->
  verifyApiKey c (WebhookApiKey (DnsPolicy (Config app))) = None ->
  ShouldBindJSON c = Ok claims ->
  exists all matched zones,
    PolicyGetAll (Storage app) = Ok all /\
    Permutation (rows (db (Storage app))) all /\
    StronglySorted ascendingById all /\
    fst (listUserRules app claims false) = Ok matched /\
    StronglySorted ascendingById matched /\
    fst (webhookFunc app c) = {| Status := StatusOK; Payload := ZonesBody zones |} /\
    List.length zones = List.length matched /\
    forall (i : nat) (rule : PolicyRule),
      nth_error matched i = Some rule ->
      nth_error zones i
      = Some {| Zone := strings.ReplaceAll (ZonePattern rule) "%u"
                          (helper.DnsMakeCompliant (Email claims));
                ZoneSOA := ZoneSoa rule |}.
Proof.
  intros Hf Hk Hb.
  pose proof (PolicyGetAll_healthy _ Hf) as Hall.
  exists (orderByIdAsc (rows (db (Storage app)))).
  eexists. eexists.
  split; [exact Hall|].
  split; [apply orderByIdAsc_Permutation|].
  split; [apply orderByIdAsc_sorted|].
  split; [rewrite listUserRules_webhook, Hall; reflexivity|].
  split; [apply filter_sorted, orderByIdAsc_sorted|].
  split; [rewrite (webhookFunc_accepted _ _ _ Hk Hb), Hall; reflexivity|].
  rewrite renderZones_map. split; [apply List.length_map|].
  intros i rule Hi. rewrite List.nth_error_map, Hi. reflexivity.
Qed.

Lemma webhook_zones_follow_ascending_ids_witness :
  exists all matched zones,
    PolicyGetAll (Storage Sample.app) = Ok all /\
    Permutation (rows (db (Storage Sample.app))) all /\
    StronglySorted ascendingById all /\
    fst (listUserRules Sample.app (Sample.claimsOf "alice@dhbw.de") false)
      = Ok matched /\
    StronglySorted ascendingById matched /\
    fst (webhookFunc Sample.app (Sample.authorized "alice@dhbw.de"))
      = {| Status := StatusOK; Payload := ZonesBody zones |} /\
    List.length zones = List.length matched /\
    forall (i : nat) (rule : PolicyRule),
      nth_error matched i = Some rule ->
      nth_error zones i
      = Some {| Zone := strings.ReplaceAll (ZonePattern rule) "%u"
                          (helper.DnsMakeCompliant
                             (Email (Sample.claimsOf "alice@dhbw.de")));
                ZoneSOA := ZoneSoa rule |}.
Proof.
  exact (webhook_zones_follow_ascending_ids Sample.app
           (Sample.authorized "alice@dhbw.de") (Sample.claimsOf "alice@dhbw.de")
           eq_refl eq_refl eq_refl).
Defined.

(** ** Updates *)

Lemma PolicyUpdate_Ok (s s' : storage.Storage) (rule r : PolicyRule) :
  PolicyUpdate s rule = (s', Ok r) ->
  r = rule /\ rows (db s') = List.map (updateRow rule) (rows (db s)).
Proof.
  unfold PolicyUpdate, dbModelSelectUpdates.
  destruct (fault (db s)) as [msg|]; [simpl; intros H; discriminate|].
  destruct (ID rule =? 0); [simpl; intros H; discriminate|].
  destruct (violatesUnique (db s) rule); [simpl; intros H; discriminate|].
  cbn [Error RowsAffected].
  destruct (affected (db s) rule =? 0).
  - destruct (PolicyGetByID _ _) as [found|e].
    + intros H. injection H as <- <-. split; reflexivity.
    + destruct (bool_decide (e = ErrRecordNotFound)); intros H; discriminate.
  - intros H. injection H as <- <-. split; reflexivity.
Qed.

Lemma Forall2_map_r {A B : Type} (R : A -> B -> Prop) (f : A -> B) (l : list A) :
  (forall x, R x (f x)) -> Forall2 R l (List.map f l).
Proof. intros H. induction l; simpl; constructor; auto. Qed.

(** C9. For every stored rule and every successful [PolicyUpdate] call,
    only ZonePattern, TargetUserFilter and Description of the stored record
    can change: row by row, ID, ZoneSoa and CreatedAt after the call are
    those before it, whatever the caller supplied for them; rows under
    another id do not change at all, and the rows under the caller's id
    take its three selected values. *)
Theorem PolicyUpdate_changes_selected_fields_only
    (s s' : storage.Storage) (rule returned : PolicyRule) :
  PolicyUpdate s rule = (s', Ok returned) ->
  Forall2
    (fun before after =>
       ID after = ID before /\
       ZoneSoa after = ZoneSoa before /\
       CreatedAt after = CreatedAt before /\
       (ID before <> ID rule -> after = before) /\
       (ID before = ID rule ->
        ZonePattern after = ZonePattern rule /\
        TargetUserFilter after = TargetUserFilter rule /\
        Description after = Description rule))
    (rows (db s)) (rows (db s')).
Proof.
  intros H. apply PolicyUpdate_Ok in H as [_ ->].
  apply Forall2_map_r. intros before. unfold updateRow.
  destruct (ID before =? ID rule) eqn:E.
  - apply Z.eqb_eq in E. simpl. repeat split; congruence.
  - apply Z.eqb_neq in E. repeat split; congruence.
Qed.

Lemma PolicyUpdate_changes_selected_fields_only_witness :
  Forall2
    (fun before after =>
       ID after = ID before /\
       ZoneSoa after = ZoneSoa before /\
       CreatedAt after = CreatedAt before /\
       (ID before <> ID Sample.rewritten -> after = before) /\
       (ID before = ID Sample.rewritten ->
        ZonePattern after = ZonePattern Sample.rewritten /\
        TargetUserFilter after = TargetUserFilter Sample.rewritten /\
        Description after = Description Sample.rewritten))
    (rows (db Sample.store))
    [Sample.personalLuebeck;
     Sample.personalDhbw;
     {| ID := 2;
        ZonePattern := "shared.dhbw.cloud";
        ZoneSoa := "project.dhbw.cloud";
        TargetUserFilter := "*@lehre.dhbw.de";
        Description := "";
        CreatedAt := 1700000000 |}].
Proof.
  exact (PolicyUpdate_changes_selected_fields_only Sample.store
           (fst (PolicyUpdate Sample.store Sample.rewritten))
           Sample.rewritten Sample.rewritten eq_refl).
Defined.

(** ** The DNS token *)







(** ** Lookup, deletion and creation of rules *)

Section StoreFacts.

Lemma insertById_least (r : PolicyRule) (l : list PolicyRule) :
  Forall (ascendingById r) l -> insertById r l = r :: l.
Proof.
  intros H. destruct l as [|x l]; [reflexivity|].
  apply Forall_inv in H. unfold ascendingById in H.
  simpl. apply Z.leb_le in H. now rewrite H.
Qed.

Lemma Forall_filter_keep (P : PolicyRule -> Prop) (f : PolicyRule -> bool)
    (l : list PolicyRule) :
  Forall P l -> Forall P (List.filter f l).
Proof.
  induction 1 as [|x l Hx Hl IH]; simpl; [constructor|].
  destruct (f x); [constructor|]; assumption.
Qed.

Lemma insertById_filter (f : PolicyRule -> bool) (r : PolicyRule)
    (l : list PolicyRule) :
  StronglySorted ascendingById l ->
  List.filter f (insertById r l)
  = if f r then insertById r (List.filter f l) else List.filter f l.
Proof.
  induction 1 as [|x l Hl IH Hx].
  - simpl. destruct (f r); reflexivity.
  - cbn [insertById]. destruct (ID r <=? ID x) eqn:E.
    + cbn [List.filter]. destruct (f r) eqn:Fr; [|reflexivity].
      symmetry. apply (insertById_least r (List.filter f (x :: l))).
      apply Forall_filter_keep. apply Z.leb_le in E.
      constructor; [exact E|].
      eapply List.Forall_impl; [|exact Hx]. unfold ascendingById. intros; lia.
    + cbn [List.filter]. rewrite IH.
      destruct (f x) eqn:Fx, (f r) eqn:Fr; try reflexivity.
      cbn [insertById]. now rewrite E.
Qed.

(** Ordering by id and selecting rows commute. *)
Lemma orderByIdAsc_filter (f : PolicyRule -> bool) (l : list PolicyRule) :
  List.filter f (orderByIdAsc l) = orderByIdAsc (List.filter f l).
Proof.
  induction l as [|r l IH]; [reflexivity|].
  cbn [orderByIdAsc List.filter].
  rewrite insertById_filter by apply orderByIdAsc_sorted.
  rewrite IH. destruct (f r); reflexivity.
Qed.

Lemma orderByIdAsc_In (r : PolicyRule) (l : list PolicyRule) :
  In r (orderByIdAsc l) <-> In r l.
Proof.
  split; apply Permutation_in;
    [symmetry|]; apply orderByIdAsc_Permutation.
Qed.

Lemma filter_nil_iff (f : PolicyRule -> bool) (l : list PolicyRule) :
  List.filter f l = [] <-> forall r, In r l -> f r = false.
Proof.
  induction l as [|x l IH]; simpl.
  - split; [intros _ r []|reflexivity].
  - destruct (f x) eqn:E; split.
    + discriminate.
    + intros H. specialize (H x (or_introl eq_refl)). congruence.
    + intros H r [<-|Hr]; [exact E|]. now apply IH.
    + intros H. apply IH. intros r Hr. apply H. now right.
Qed.

Lemma filter_length_zero (f : PolicyRule -> bool) (l : list PolicyRule) :
  Z.of_nat (List.length (List.filter f l)) = 0 <-> List.filter f l = [].
Proof.
  destruct (List.filter f l); simpl; split; intros H;
    try reflexivity; try discriminate; lia.
Qed.

End StoreFacts.

(** X1. [PolicyGetByID] answers in one of three ways: with a stored row
    that carries the id asked for, on a healthy store that holds one; with
    the very [ErrRecordNotFound] of GORM, on a healthy store that holds
    none; with the wrapped failure of the database otherwise.  It never
    succeeds without a rule. *)
Theorem PolicyGetByID_cases (s : storage.Storage) (id : Z) :
  match PolicyGetByID s id with
  | Ok (Some r) => fault (db s) = None /\ In r (rows (db s)) /\ ID r = id
  | Ok None => False
  | Err e =>
      (e = ErrRecordNotFound /\ fault (db s) = None /\
       forall r, In r (rows (db s)) -> ID r <> id) \/
      (exists msg,
         fault (db s) = Some msg /\
         e = Errorf ("storage.GetByID: Failed to retrieve rule " +:+ itoa id)
               (ErrDriver msg))
  end.
Proof.
  unfold PolicyGetByID, dbFirst.
  destruct (fault (db s)) as [msg|]; [right; eauto|].
  destruct (List.filter _ _) as [|r found] eqn:E; cbn.
  - left. split; [reflexivity|]. split; [reflexivity|].
    intros r Hr Hid. rewrite filter_nil_iff in E.
    specialize (E r (proj2 (orderByIdAsc_In _ _) Hr)).
    apply Z.eqb_neq in E. contradiction.
  - assert (Hin : In r (List.filter (fun r => ID r =? id) (orderByIdAsc (rows (db s)))))
      by (rewrite E; now left).
    apply filter_In in Hin as [Hin Hid].
    split; [reflexivity|]. split; [now apply orderByIdAsc_In|].
    now apply Z.eqb_eq.
Qed.

Lemma filter_all_in (f : PolicyRule -> bool) (l : list PolicyRule) :
  (forall r, In r l -> f r = true) -> List.filter f l = l.
Proof.
  induction l as [|x l IH]; intros H; [reflexivity|].
  cbn [List.filter]. rewrite (H x (or_introl eq_refl)).
  f_equal. apply IH. intros r Hr. apply H. now right.
Qed.

Lemma filter_other_id (id id' : Z) (l : list PolicyRule) :
  id' <> id ->
  List.filter (fun r => ID r =? id') (List.filter (fun r => negb (ID r =? id)) l)
  = List.filter (fun r => ID r =? id') l.
Proof.
  intros Hne. induction l as [|x l IH]; [reflexivity|].
  cbn [List.filter].
  destruct (ID x =? id) eqn:E; cbn [negb List.filter].
  - apply Z.eqb_eq in E.
    assert (X : (ID x =? id') = false) by (apply Z.eqb_neq; congruence).
    now rewrite X.
  - rewrite IH. reflexivity.
Qed.

Lemma filter_same_id (id : Z) (l : list PolicyRule) :
  List.filter (fun r => ID r =? id) (List.filter (fun r => negb (ID r =? id)) l) = [].
Proof.
  induction l as [|x l IH]; [reflexivity|].
  cbn [List.filter].
  destruct (ID x =? id) eqn:E; cbn [negb List.filter]; [exact IH|].
  now rewrite E.
Qed.

Lemma PolicyDelete_healthy (s : storage.Storage) (id : Z) :
  fault (db s) = None ->
  PolicyDelete s id
  = let s' := {| db := {| rows := List.filter (fun r => negb (ID r =? id)) (rows (db s));
                          dialect := dialect (db s);
                          fault := fault (db s) |} |} in
    if Z.of_nat (List.length (List.filter (fun r => ID r =? id) (rows (db s)))) =? 0
    then (s', Some ErrRecordNotFound)
    else (s', None).
Proof. intros H. unfold PolicyDelete, dbDelete. rewrite H. reflexivity. Qed.

Lemma PolicyDelete_None_inv (s s' : storage.Storage) (id : Z) :
  PolicyDelete s id = (s', None) ->
  fault (db s) = None /\
  List.filter (fun r => ID r =? id) (rows (db s)) <> [] /\
  s' = {| db := {| rows := List.filter (fun r => negb (ID r =? id)) (rows (db s));
                   dialect := dialect (db s);
                   fault := None |} |}.
Proof.
  destruct (fault (db s)) as [msg|] eqn:F.
  - unfold PolicyDelete, dbDelete. rewrite F. discriminate.
  - rewrite (PolicyDelete_healthy _ _ F). cbv zeta. rewrite F.
    destruct (_ =? 0) eqn:E; [discriminate|].
    intros H. injection H as <-. split; [reflexivity|]. split; [|reflexivity].
    intros Hnil. rewrite Hnil in E. discriminate.
Qed.

(** X2. A successful [PolicyDelete] removes the rows under the given id
    and nothing else: a row under that id was stored; afterwards a lookup
    of the id answers [ErrRecordNotFound], and the lookup of every other
    id answers as before. *)
Theorem PolicyDelete_removes_that_id_only (s s' : storage.Storage) (id : Z) :
  PolicyDelete s id = (s', None) ->
  (exists r, In r (rows (db s)) /\ ID r = id) /\
  rows (db s') = List.filter (fun r => negb (ID r =? id)) (rows (db s)) /\
  PolicyGetByID s' id = Err ErrRecordNotFound /\
  (forall id', id' <> id -> PolicyGetByID s' id' = PolicyGetByID s id').
Proof.
  intros H. apply PolicyDelete_None_inv in H as (F & Hsome & ->).
  split; [|split; [reflexivity|split]].
  - destruct (List.filter _ _) as [|r found] eqn:E; [contradiction|].
    exists r. assert (Hin : In r (List.filter (fun r => ID r =? id) (rows (db s))))
      by (rewrite E; now left).
    apply filter_In in Hin as [Hin Hid]. split; [exact Hin|now apply Z.eqb_eq].
  - unfold PolicyGetByID, dbFirst. cbn [db rows fault].
    rewrite orderByIdAsc_filter, filter_same_id. reflexivity.
  - intros id' Hne. unfold PolicyGetByID, dbFirst. cbn [db rows fault].
    rewrite F, !orderByIdAsc_filter, (filter_other_id _ _ _ Hne). reflexivity.
Qed.

Lemma PolicyDelete_removes_that_id_only_witness :
  PolicyGetByID (fst (PolicyDelete Sample.store 1)) 1 = Err ErrRecordNotFound /\
  PolicyGetByID (fst (PolicyDelete Sample.store 1)) 3 = PolicyGetByID Sample.store 3.
Proof.
  pose proof (PolicyDelete_removes_that_id_only Sample.store
                (fst (PolicyDelete Sample.store 1)) 1 eq_refl) as H.
  split.
  - exact (proj1 (proj2 (proj2 H))).
  - apply (proj2 (proj2 (proj2 H))). discriminate.
Defined.

(** X3. A failed [PolicyDelete] leaves the store as it was, and its
    error tells the cause: the bare [ErrRecordNotFound] of GORM when the
    healthy store holds no row under the id, and otherwise the failure of
    the database, wrapped in a message that names the id. *)
Theorem PolicyDelete_failure (s s' : storage.Storage) (id : Z) (e : error) :
  PolicyDelete s id = (s', Some e) ->
  s' = s /\
  ((e = ErrRecordNotFound /\ fault (db s) = None /\
    forall r, In r (rows (db s)) -> ID r <> id) \/
   (exists msg,
      fault (db s) = Some msg /\
      e = Errorf ("storage.Delete: Failed to delete rule " +:+ itoa id)
            (ErrDriver msg))).
Proof.
  destruct s as [[table kind broken]].
  destruct broken as [msg|].
  - unfold PolicyDelete, dbDelete. cbn. intros H. injection H as <- <-.
    split; [reflexivity|]. right. eauto.
  - rewrite PolicyDelete_healthy by reflexivity. cbv zeta. cbn [db rows dialect fault].
    destruct (_ =? 0) eqn:E; [|discriminate].
    apply Z.eqb_eq, filter_length_zero in E.
    intros H. injection H as <- <-.
    pose proof (proj1 (filter_nil_iff _ _) E) as Hnone.
    split.
    + do 2 f_equal. apply filter_all_in.
      intros r Hr. now rewrite (Hnone r Hr).
    + left. split; [reflexivity|]. split; [reflexivity|].
      intros r Hr Hid. specialize (Hnone r Hr). apply Z.eqb_neq in Hnone.
      contradiction.
Qed.

Lemma PolicyDelete_failure_witness :
  fst (PolicyDelete Sample.store 9) = Sample.store.
Proof.
  exact (proj1 (PolicyDelete_failure Sample.store
                  (fst (PolicyDelete Sample.store 9)) 9 ErrRecordNotFound eq_refl)).
Defined.

(** X4. After a successful [PolicyDelete], [PolicyGetAll] returns what it
    returned before without the rules under the deleted id, in the same
    order. *)
Theorem PolicyGetAll_after_delete (s s' : storage.Storage) (id : Z) :
  PolicyDelete s id = (s', None) ->
  exists all,
    PolicyGetAll s = Ok all /\
    PolicyGetAll s' = Ok (List.filter (fun r => negb (ID r =? id)) all).
Proof.
  intros H. apply PolicyDelete_None_inv in H as (F & _ & ->).
  exists (orderByIdAsc (rows (db s))). split.
  - now apply PolicyGetAll_healthy.
  - rewrite PolicyGetAll_healthy by reflexivity. cbn [db rows].
    now rewrite orderByIdAsc_filter.
Qed.

Lemma PolicyGetAll_after_delete_witness :
  exists all,
    PolicyGetAll Sample.store = Ok all /\
    PolicyGetAll (fst (PolicyDelete Sample.store 2))
    = Ok (List.filter (fun r => negb (ID r =? 2)) all).
Proof.
  exact (PolicyGetAll_after_delete Sample.store
           (fst (PolicyDelete Sample.store 2)) 2 eq_refl).
Defined.


Lemma existsb_false_In (f : PolicyRule -> bool) (l : list PolicyRule) :
  existsb f l = false -> forall r, In r l -> f r = false.
Proof.
  intros H r Hr. destruct (f r) eqn:E; [|reflexivity].
  rewrite <- H. symmetry. apply existsb_exists. eauto.
Qed.

(** The row [PolicyCreate] hands to the database. *)
Lemma PolicyCreate_Ok_inv (s s' : storage.Storage) (env : Readings)
    (rule created : PolicyRule) :
  PolicyCreate s env rule = (s', Ok created) ->
  let stamped :=
    if IsZero (CreatedAt rule) then withCreatedAt (clock env) rule else rule in
  fault (db s) = None /\
  created = (if ID stamped =? 0 then withID (serial env) stamped else stamped) /\
  existsb (fun r => ID r =? ID created) (rows (db s)) = false /\
  existsb (fun r => String.eqb (ZonePattern r) (ZonePattern created)) (rows (db s))
    = false /\
  s' = {| db := {| rows := rows (db s) ++ [created];
                   dialect := dialect (db s);
                   fault := None |} |}.
Proof.
  cbv zeta. unfold PolicyCreate, dbCreate.
  set (stamped := if IsZero (CreatedAt rule) then _ else rule).
  destruct (fault (db s)) as [msg|]; [discriminate|].
  set (row := if ID stamped =? 0 then _ else stamped).
  repeat lazymatch goal with
         | |- context [if ?b then _ else _] => destruct b eqn:?; [discriminate|]
         end.
  cbn. intros H. injection H as <- <-. repeat split; assumption.
Qed.



(** X6. [PolicyCreate] refuses a rule whose zone pattern a stored rule
    already has, and a rule that brings the id of a stored rule: it returns
    an error that wraps the failure of the database, and the store stays as
    it was. *)
Theorem PolicyCreate_rejects_taken_keys (s : storage.Storage) (env : Readings)
    (rule stored : PolicyRule) :
  In stored (rows (db s)) ->
  ZonePattern stored = ZonePattern rule \/ (ID rule <> 0 /\ ID stored = ID rule) ->
  exists e,
    PolicyCreate s env rule
    = (s, Err (Errorf "storage.Create: Failed to create rule" (ErrDriver e))).
Proof.
  intros Hin Hkey. destruct s as [d]. unfold PolicyCreate, dbCreate.
  set (stamped := if IsZero (CreatedAt rule) then _ else rule).
  assert (HZ : ZonePattern stamped = ZonePattern rule)
    by (subst stamped; destruct (IsZero _); reflexivity).
  assert (HI : ID stamped = ID rule)
    by (subst stamped; destruct (IsZero _); reflexivity).
  cbn [db] in *. destruct (fault d) as [msg|]; [cbn; eauto|].
  set (row := if ID stamped =? 0 then _ else stamped).
  assert (HZr : ZonePattern row = ZonePattern rule)
    by (subst row; destruct (ID stamped =? 0); [cbn|]; exact HZ).
  destruct (existsb (fun r => ID r =? ID row) (rows d)) eqn:E1; [cbn; eauto|].
  destruct Hkey as [Hz|[Hnz Hid]].
  - assert (E2 : existsb (fun r => String.eqb (ZonePattern r) (ZonePattern row))
                   (rows d) = true).
    { apply existsb_exists. exists stored. split; [exact Hin|].
      apply String.eqb_eq. congruence. }
    rewrite E2. cbn. eauto.
  - exfalso.
    assert (X : existsb (fun r => ID r =? ID row) (rows d) = true).
    { apply existsb_exists. exists stored. split; [exact Hin|].
      apply Z.eqb_eq. subst row. rewrite HI.
      destruct (ID rule =? 0) eqn:E; [apply Z.eqb_eq in E; contradiction|].
      congruence. }
    congruence.
Qed.

Lemma PolicyCreate_rejects_taken_keys_witness :
  exists e,
    PolicyCreate Sample.store Sample.readings Sample.rewritten
    = (Sample.store,
       Err (Errorf "storage.Create: Failed to create rule" (ErrDriver e))).
Proof.
  apply (PolicyCreate_rejects_taken_keys Sample.store Sample.readings
           Sample.rewritten Sample.projectDhbw).
  - simpl. tauto.
  - right. split; [discriminate|reflexivity].
Defined.

(** ** Uniqueness of the keys *)

Section Keys.

Lemma NoDup_map_filter {B : Type} (g : PolicyRule -> B) (f : PolicyRule -> bool)
    (l : list PolicyRule) :
  List.NoDup (List.map g l) -> List.NoDup (List.map g (List.filter f l)).
Proof.
  induction l as [|x l IH]; [trivial|].
  cbn [List.map List.filter]. intros H.
  apply List.NoDup_cons_iff in H as [Hx Hl].
  destruct (f x); [|now apply IH].
  cbn [List.map]. apply List.NoDup_cons_iff. split; [|now apply IH].
  intros Hin. apply Hx. apply in_map_iff in Hin as (y & Hy & Hin).
  apply filter_In in Hin as [Hin _]. apply in_map_iff. eauto.
Qed.

Lemma NoDup_map_snoc {B : Type} (g : PolicyRule -> B) (x : PolicyRule)
    (l : list PolicyRule) :
  List.NoDup (List.map g l) ->
  (forall r, In r l -> g r <> g x) ->
  List.NoDup (List.map g (l ++ [x])).
Proof.
  intros Hl Hx. rewrite List.map_app. cbn [List.map].
  apply List.NoDup_app; [exact Hl|repeat constructor; simpl; tauto|].
  intros b Hb [<-|[]]. apply in_map_iff in Hb as (r & Hr & Hin).
  exact (Hx r Hin Hr).
Qed.

Lemma updateRow_ID (rule r : PolicyRule) : ID (updateRow rule r) = ID r.
Proof. unfold updateRow. destruct (ID r =? ID rule); reflexivity. Qed.

Lemma updateRow_other (rule r : PolicyRule) :
  ID r <> ID rule -> updateRow rule r = r.
Proof. intros H. unfold updateRow. apply Z.eqb_neq in H. now rewrite H. Qed.

Lemma updateRow_same (rule r : PolicyRule) :
  ID r = ID rule -> updateRow rule r = assignSelected rule r.
Proof. intros H. unfold updateRow. apply Z.eqb_eq in H. now rewrite H. Qed.

Lemma map_updateRow_ID (rule : PolicyRule) (l : list PolicyRule) :
  List.map ID (List.map (updateRow rule) l) = List.map ID l.
Proof.
  rewrite List.map_map. apply List.map_ext. intros r. apply updateRow_ID.
Qed.

Lemma map_updateRow_fixed (rule : PolicyRule) (l : list PolicyRule) :
  (forall r, In r l -> updateRow rule r = r) -> List.map (updateRow rule) l = l.
Proof.
  intros H. rewrite <- (List.map_id l) at 2. apply List.map_ext_in. exact H.
Qed.

Lemma updateRow_patterns_NoDup (rule : PolicyRule) (l : list PolicyRule) :
  List.NoDup (List.map ID l) ->
  List.NoDup (List.map ZonePattern l) ->
  (forall r, In r l -> ID r <> ID rule -> ZonePattern r <> ZonePattern rule) ->
  List.NoDup (List.map ZonePattern (List.map (updateRow rule) l)).
Proof.
  induction l as [|x l IH]; [trivial|].
  cbn [List.map]. intros HI HZ Hfree.
  apply List.NoDup_cons_iff in HI as [HIx HI]. apply List.NoDup_cons_iff in HZ as [HZx HZ].
  apply List.NoDup_cons_iff. split.
  - intros Hin. apply in_map_iff in Hin as (y' & Hy' & Hin).
    apply in_map_iff in Hin as (y & <- & Hin).
    assert (Hxy : ID y <> ID x).
    { intros E. apply HIx. apply in_map_iff. eauto. }
    destruct (Z.eq_dec (ID x) (ID rule)) as [Ex|Ex].
    + rewrite (updateRow_same _ _ Ex) in Hy'. cbn in Hy'.
      rewrite updateRow_other in Hy' by congruence.
      apply (Hfree y); [now right|congruence|exact Hy'].
    + rewrite (updateRow_other _ _ Ex) in Hy'.
      destruct (Z.eq_dec (ID y) (ID rule)) as [Ey|Ey].
      * rewrite (updateRow_same _ _ Ey) in Hy'. cbn in Hy'.
        apply (Hfree x); [now left|exact Ex|congruence].
      * rewrite (updateRow_other _ _ Ey) in Hy'.
        apply HZx. apply in_map_iff. eauto.
  - apply IH; [exact HI|exact HZ|].
    intros r Hr. apply Hfree. now right.
Qed.

Lemma violatesUnique_false (d : DB) (rule : PolicyRule) :
  violatesUnique d rule = false ->
  (forall r, In r (rows d) -> ID r <> ID rule) \/
  (forall r, In r (rows d) -> ID r <> ID rule ->
             ZonePattern r <> ZonePattern rule).
Proof.
  unfold violatesUnique. intros H. apply andb_false_iff in H as [H|H].
  - left. intros r Hr. apply Z.eqb_neq. exact (existsb_false_In _ _ H r Hr).
  - right. intros r Hr Hid Hz.
    pose proof (existsb_false_In _ _ H r Hr) as X. cbv beta in X.
    apply Z.eqb_neq in Hid. rewrite Hid in X.
    apply String.eqb_eq in Hz. rewrite Hz in X. discriminate.
Qed.

(** The table after [PolicyUpdate], whatever its outcome. *)
Lemma PolicyUpdate_rows (s : storage.Storage) (rule : PolicyRule) :
  fst (PolicyUpdate s rule) = s \/
  (fault (db s) = None /\ ID rule <> 0 /\ violatesUnique (db s) rule = false /\
   fst (PolicyUpdate s rule)
   = {| db := {| rows := List.map (updateRow rule) (rows (db s));
                 dialect := dialect (db s);
                 fault := None |} |}).
Proof.
  destruct s as [[table kind broken]].
  unfold PolicyUpdate, dbModelSelectUpdates. cbn [db fault rows dialect].
  destruct broken as [msg|]; [left; reflexivity|].
  destruct (ID rule =? 0) eqn:E0; [left; reflexivity|].
  destruct (violatesUnique _ rule) eqn:EV; [left; reflexivity|].
  right. apply Z.eqb_neq in E0. repeat split; try assumption.
  cbn [Error RowsAffected].
  destruct (affected _ rule =? 0); [|reflexivity].
  destruct (PolicyGetByID _ _) as [found|e]; [reflexivity|].
  destruct (bool_decide _); reflexivity.
Qed.

Lemma PolicyCreate_Err_unchanged (s s' : storage.Storage) (env : Readings)
    (rule : PolicyRule) (e : error) :
  PolicyCreate s env rule = (s', Err e) -> s' = s.
Proof.
  destruct s as [d]. unfold PolicyCreate, dbCreate. cbn [db].
  set (stamped := if IsZero (CreatedAt rule) then _ else rule).
  destruct (fault d) as [msg|]; [cbn; intros H; now inversion H|].
  set (row := if ID stamped =? 0 then _ else stamped).
  destruct (existsb (fun r => ID r =? ID row) (rows d));
    [cbn; intros H; now inversion H|].
  destruct (existsb _ (rows d)); cbn; intros H; now inversion H.
Qed.

End Keys.

(** X7. The store keeps its keys unique: if no two rows share an id and
    no two rows share a zone pattern, the same holds after [PolicyCreate],
    after [PolicyUpdate] and after [PolicyDelete], whether the call
    succeeds or fails. *)
Theorem crud_keeps_keys_unique (s : storage.Storage) (env : Readings)
    (new rule : PolicyRule) (id : Z) :
  keysUnique s ->
  keysUnique (fst (PolicyCreate s env new)) /\
  keysUnique (fst (PolicyUpdate s rule)) /\
  keysUnique (fst (PolicyDelete s id)).
Proof.
  intros [HI HZ]. split; [|split].
  - destruct (PolicyCreate s env new) as [s' [created|e]] eqn:E.
    + apply PolicyCreate_Ok_inv in E as (_ & _ & Hid & Hzp & ->).
      split; cbn [fst db rows]; apply NoDup_map_snoc; try assumption.
      * intros r Hr. apply Z.eqb_neq. exact (existsb_false_In _ _ Hid r Hr).
      * intros r Hr. apply String.eqb_neq.
        exact (existsb_false_In _ _ Hzp r Hr).
    + apply PolicyCreate_Err_unchanged in E. subst s'. split; assumption.
  - destruct (PolicyUpdate_rows s rule) as [->|(_ & _ & HV & ->)];
      [split; assumption|].
    split; cbn [db rows].
    + now rewrite map_updateRow_ID.
    + destruct (violatesUnique_false _ _ HV) as [Habs|Hfree].
      * rewrite map_updateRow_fixed; [exact HZ|].
        intros r Hr. apply updateRow_other. now apply Habs.
      * now apply updateRow_patterns_NoDup.
  - unfold PolicyDelete, dbDelete.
    destruct (fault (db s)) as [msg|] eqn:F; cbn; [split; assumption|].
    destruct (_ =? 0); cbn; split; now apply NoDup_map_filter.
Qed.

Lemma crud_keeps_keys_unique_witness :
  keysUnique (fst (PolicyCreate Sample.store Sample.readings Sample.labRule)) /\
  keysUnique (fst (PolicyUpdate Sample.store Sample.rewritten)) /\
  keysUnique (fst (PolicyDelete Sample.store 2)).
Proof.
  apply (crud_keeps_keys_unique Sample.store Sample.readings Sample.labRule
           Sample.rewritten 2).
  split; cbn; repeat constructor; cbn; intuition discriminate.
Defined.

(** ** Outcomes of an update *)

Section UpdateFacts.


Lemma affected_nonzero_present (d : DB) (rule : PolicyRule) :
  affected d rule <> 0 -> exists old, In old (rows d) /\ ID old = ID rule.
Proof.
  unfold affected. intros H.
  assert (X : exists old,
             In old (List.filter (fun r => ID r =? ID rule) (rows d))).
  { destruct (List.filter (fun r => ID r =? ID rule) (rows d)) as [|old found].
    - destruct (dialect d); contradiction.
    - exists old. now left. }
  destruct X as (old & Hold). apply filter_In in Hold as [Hin Hid].
  exists old. split; [exact Hin|now apply Z.eqb_eq].
Qed.

Lemma updated_lookup (s : storage.Storage) (rule : PolicyRule) :
  fault (db s) = None ->
  PolicyGetByID
    {| db := {| rows := List.map (updateRow rule) (rows (db s));
                dialect := dialect (db s);
                fault := None |} |} (ID rule)
  = match List.filter (fun r => ID r =? ID rule) (orderByIdAsc (rows (db s))) with
    | old :: _ => Ok (Some (assignSelected rule old))
    | [] => Err ErrRecordNotFound
    end.
Proof.
  intros F. unfold PolicyGetByID, dbFirst. cbn [db rows fault].
  rewrite !orderByIdAsc_filter.
  assert (X : List.filter (fun r => ID r =? ID rule)
                (List.map (updateRow rule) (rows (db s)))
              = List.map (assignSelected rule)
                  (List.filter (fun r => ID r =? ID rule) (rows (db s)))).
  { induction (rows (db s)) as [|x l IH]; [reflexivity|].
    cbn [List.map List.filter]. rewrite updateRow_ID.
    destruct (ID x =? ID rule) eqn:E; [|exact IH].
    cbn [List.map]. rewrite IH. f_equal.
    apply updateRow_same. now apply Z.eqb_eq. }
  rewrite X.
  assert (Y : forall l,
             orderByIdAsc (List.map (assignSelected rule) l)
             = List.map (assignSelected rule) (orderByIdAsc l)).
  { induction l as [|x l IH]; [reflexivity|].
    cbn [List.map orderByIdAsc]. rewrite IH.
    generalize (orderByIdAsc l). intros m.
    induction m as [|y m IHm]; [reflexivity|].
    cbn [insertById List.map ID assignSelected].
    destruct (ID x <=? ID y); [reflexivity|].
    cbn [List.map]. now rewrite IHm. }
  rewrite Y. destruct (orderByIdAsc _) as [|old found]; reflexivity.
Qed.

(** A stored row under the rule's id, on a healthy store and with the
    pattern free, is all the model of the database asks for. *)
Lemma PolicyUpdate_present (s : storage.Storage) (rule old : PolicyRule) :
  fault (db s) = None ->
  ID rule <> 0 ->
  violatesUnique (db s) rule = false ->
  In old (rows (db s)) ->
  ID old = ID rule ->
  PolicyUpdate s rule
  = ({| db := {| rows := List.map (updateRow rule) (rows (db s));
                 dialect := dialect (db s);
                 fault := None |} |}, Ok rule).
Proof.
  intros F Hnz HV Hin Hid.
  pose proof (updated_lookup s rule F) as HL.
  unfold PolicyUpdate, dbModelSelectUpdates. rewrite F, HV.
  apply Z.eqb_neq in Hnz. rewrite Hnz. cbn [Error RowsAffected].
  destruct (affected (db s) rule =? 0); [|reflexivity].
  rewrite HL.
  destruct (List.filter _ _) as [|found rest] eqn:E; [|reflexivity].
  exfalso. rewrite filter_nil_iff in E.
  specialize (E old (proj2 (orderByIdAsc_In _ _) Hin)). cbv beta in E.
  apply Z.eqb_neq in E. contradiction.
Qed.

End UpdateFacts.



(** X9. On a healthy store that holds no rule under the non-zero id of
    [rule], [PolicyUpdate] answers the bare [ErrRecordNotFound] of GORM and
    leaves the store as it was, under every dialect. *)
Theorem PolicyUpdate_absent (s : storage.Storage) (rule : PolicyRule) :
  fault (db s) = None ->
  ID rule <> 0 ->
  (forall r, In r (rows (db s)) -> ID r <> ID rule) ->
  PolicyUpdate s rule = (s, Err ErrRecordNotFound).
Proof.
  destruct s as [[table kind broken]]. cbn [db fault rows].
  intros -> Hnz Habs.
  set (s := {| db := {| rows := table; dialect := kind; fault := None |} |}).
  assert (HV : violatesUnique (db s) rule = false).
  { unfold violatesUnique. apply andb_false_iff. left.
    apply not_true_is_false. intros X.
    apply existsb_exists in X as (r & Hr & Hid). apply Z.eqb_eq in Hid.
    exact (Habs r Hr Hid). }
  assert (HN : List.filter (fun r => ID r =? ID rule) table = []).
  { apply filter_nil_iff. intros r Hr. apply Z.eqb_neq. now apply Habs. }
  assert (HA : affected (db s) rule = 0).
  { unfold affected. cbn [s db rows dialect]. rewrite HN. now destruct kind. }
  assert (HL : List.filter (fun r => ID r =? ID rule) (orderByIdAsc table) = []).
  { now rewrite orderByIdAsc_filter, HN. }
  assert (Hfix : List.map (updateRow rule) table = table).
  { apply map_updateRow_fixed. intros r Hr. apply updateRow_other. now apply Habs. }
  pose proof (updated_lookup s rule eq_refl) as HU.
  cbn [s db rows dialect] in HU. rewrite HL, Hfix in HU.
  unfold PolicyUpdate, dbModelSelectUpdates. cbn [s db fault] in *.
  apply Z.eqb_neq in Hnz. rewrite Hnz, HV. cbn [Error RowsAffected].
  rewrite HA. cbn [Z.eqb rows dialect]. rewrite Hfix, HU. reflexivity.
Qed.

Lemma PolicyUpdate_absent_witness :
  PolicyUpdate Sample.mysqlStore
    {| ID := 9; ZonePattern := "x.dhbw.cloud"; ZoneSoa := "dhbw.cloud";
       TargetUserFilter := "*"; Description := ""; CreatedAt := 0 |}
  = (Sample.mysqlStore, Err ErrRecordNotFound).
Proof.
  apply PolicyUpdate_absent; [reflexivity|discriminate|].
  intros r [<-|[<-|[<-|[]]]]; discriminate.
Defined.

Lemma NoDup_map_inj {B : Type} (g : PolicyRule -> B) (l : list PolicyRule)
    (a b : PolicyRule) :
  List.NoDup (List.map g l) -> In a l -> In b l -> g a = g b -> a = b.
Proof.
  induction l as [|x l IH]; [intros _ []|].
  cbn [List.map]. intros H. apply List.NoDup_cons_iff in H as [Hx Hl].
  intros [<-|Ha] [<-|Hb] Hg; try reflexivity.
  - exfalso. apply Hx. rewrite Hg. now apply in_map.
  - exfalso. apply Hx. rewrite <- Hg. now apply in_map.
  - now apply IH.
Qed.

Lemma filter_unique_id (l : list PolicyRule) (old : PolicyRule) :
  List.NoDup (List.map ID l) -> In old l ->
  List.filter (fun r => ID r =? ID old) l = [old].
Proof.
  induction l as [|x l IH]; [intros _ []|].
  cbn [List.map List.filter]. intros H.
  apply List.NoDup_cons_iff in H as [Hx Hl]. intros [->|Hin].
  - rewrite Z.eqb_refl. f_equal. apply filter_nil_iff.
    intros r Hr. apply Z.eqb_neq. intros E. apply Hx. rewrite <- E.
    now apply in_map.
  - assert (E : (ID x =? ID old) = false).
    { apply Z.eqb_neq. intros E. apply Hx. rewrite E. now apply in_map. }
    rewrite E. now apply IH.
Qed.

Lemma PolicyUpdate_Ok_present (s s' : storage.Storage) (rule returned : PolicyRule) :
  PolicyUpdate s rule = (s', Ok returned) ->
  fault (db s) = None /\
  exists old, In old (rows (db s)) /\ ID old = ID rule.
Proof.
  unfold PolicyUpdate, dbModelSelectUpdates.
  destruct (fault (db s)) as [msg|] eqn:F; [simpl; discriminate|].
  destruct (ID rule =? 0); [simpl; discriminate|].
  destruct (violatesUnique (db s) rule); [simpl; discriminate|].
  cbn [Error RowsAffected].
  destruct (affected (db s) rule =? 0) eqn:EA.
  - rewrite (updated_lookup s rule F).
    destruct (List.filter _ _) as [|old rest] eqn:E; [discriminate|].
    intros _. split; [reflexivity|]. exists old.
    assert (Hin : In old (List.filter (fun r => ID r =? ID rule)
                            (orderByIdAsc (rows (db s)))))
      by (rewrite E; now left).
    apply filter_In in Hin as [Hin Hid].
    split; [now apply orderByIdAsc_In|now apply Z.eqb_eq].
  - intros _. split; [reflexivity|].
    apply affected_nonzero_present. now apply Z.eqb_neq.
Qed.

(** X10. After a successful [PolicyUpdate] on a table with unique ids, the
    rule found under the id is the stored rule with the caller's pattern,
    filter and description and with its own authority and creation time.
    The object [PolicyUpdate] returns is the caller's own, with the
    caller's authority and creation time. *)
Theorem PolicyUpdate_then_lookup (s s' : storage.Storage) (rule returned : PolicyRule) :
  List.NoDup (List.map ID (rows (db s))) ->
  PolicyUpdate s rule = (s', Ok returned) ->
  returned = rule /\
  exists old,
    In old (rows (db s)) /\ ID old = ID rule /\
    PolicyGetByID s' (ID rule)
    = Ok (Some {| ID := ID old;
                  ZonePattern := ZonePattern rule;
                  ZoneSoa := ZoneSoa old;
                  TargetUserFilter := TargetUserFilter rule;
                  Description := Description rule;
                  CreatedAt := CreatedAt old |}).
Proof.
  intros HI H.
  pose proof (PolicyUpdate_Ok_present _ _ _ _ H) as (F & old & Hin & Hid).
  pose proof (PolicyUpdate_Ok _ _ _ _ H) as [-> Hrows].
  split; [reflexivity|]. exists old. split; [exact Hin|]. split; [exact Hid|].
  assert (Hs' : s' = {| db := {| rows := List.map (updateRow rule) (rows (db s));
                                 dialect := dialect (db s);
                                 fault := None |} |}).
  { destruct (PolicyUpdate_rows s rule) as [X|(_ & _ & _ & X)];
      rewrite H in X; cbn [fst] in X; [|exact X].
    subst s'. destruct s as [[table kind broken]]. cbn [db rows dialect fault] in *.
    subst broken. now rewrite <- Hrows. }
  rewrite Hs', (updated_lookup s rule F), orderByIdAsc_filter, <- Hid.
  rewrite (filter_unique_id _ _ HI Hin). reflexivity.
Qed.

Lemma PolicyUpdate_then_lookup_witness :
  exists old,
    In old (rows (db Sample.store)) /\ ID old = ID Sample.rewritten /\
    PolicyGetByID (fst (PolicyUpdate Sample.store Sample.rewritten))
      (ID Sample.rewritten)
    = Ok (Some {| ID := ID old;
                  ZonePattern := ZonePattern Sample.rewritten;
                  ZoneSoa := ZoneSoa old;
                  TargetUserFilter := TargetUserFilter Sample.rewritten;
                  Description := Description Sample.rewritten;
                  CreatedAt := CreatedAt old |}).
Proof.
  refine (proj2 (PolicyUpdate_then_lookup Sample.store
                   (fst (PolicyUpdate Sample.store Sample.rewritten))
                   Sample.rewritten Sample.rewritten _ eq_refl)).
  cbn. repeat constructor; cbn; intuition discriminate.
Defined.

(** X11. An update that changes nothing succeeds under every dialect,
    MySQL included, which reports no affected row for it: on a healthy
    store with unique keys, [PolicyUpdate] with the id, pattern, filter and
    description of a stored rule returns the caller's object and leaves the
    store as it was. *)
Theorem PolicyUpdate_unchanged_rule_succeeds
    (s : storage.Storage) (rule old : PolicyRule) :
  keysUnique s ->
  fault (db s) = None ->
  In old (rows (db s)) ->
  ID rule = ID old ->
  ID rule <> 0 ->
  ZonePattern rule = ZonePattern old ->
  TargetUserFilter rule = TargetUserFilter old ->
  Description rule = Description old ->
  PolicyUpdate s rule = (s, Ok rule).
Proof.
  intros [HI HZ] F Hin Hid Hnz Hzp Hf Hd.
  assert (HV : violatesUnique (db s) rule = false).
  { unfold violatesUnique. apply andb_false_iff. right.
    apply not_true_is_false. intros X.
    apply existsb_exists in X as (r & Hr & Hc).
    apply andb_prop in Hc as [Hne Heq].
    apply negb_true_iff, Z.eqb_neq in Hne. apply String.eqb_eq in Heq.
    apply Hne. rewrite Hid. f_equal.
    apply (NoDup_map_inj ZonePattern (rows (db s))); congruence. }
  rewrite (PolicyUpdate_present s rule old F Hnz HV Hin (eq_sym Hid)).
  f_equal. destruct s as [[table kind broken]]. cbn [db rows dialect fault] in *.
  subst broken. do 2 f_equal. apply map_updateRow_fixed.
  intros r Hr. destruct (Z.eq_dec (ID r) (ID rule)) as [E|E];
    [|now apply updateRow_other].
  rewrite (updateRow_same _ _ E).
  assert (r = old) by (apply (NoDup_map_inj ID table); congruence).
  subst r. destruct old. unfold assignSelected. cbn in *. congruence.
Qed.

Lemma PolicyUpdate_unchanged_rule_succeeds_witness :
  PolicyUpdate Sample.mysqlStore
    {| ID := 2;
       ZonePattern := "project.dhbw.cloud";
       ZoneSoa := "";
       TargetUserFilter := "*@dhbw.de";
       Description := "All DHBW users can manage a common project zone";
       CreatedAt := 0 |}
  = (Sample.mysqlStore,
     Ok {| ID := 2;
           ZonePattern := "project.dhbw.cloud";
           ZoneSoa := "";
           TargetUserFilter := "*@dhbw.de";
           Description := "All DHBW users can manage a common project zone";
           CreatedAt := 0 |}).
Proof.
  apply (PolicyUpdate_unchanged_rule_succeeds Sample.mysqlStore _ Sample.projectDhbw);
    try reflexivity.
  - split; cbn; repeat constructor; cbn; intuition discriminate.
  - cbn. tauto.
  - discriminate.
Defined.

(** ** Dummy data *)

Lemma PolicyCreate_rejects_taken_keys_any (s : storage.Storage) (env : Readings)
    (rule stored : PolicyRule) :
  In stored (rows (db s)) ->
  ZonePattern stored = ZonePattern rule ->
  exists e, PolicyCreate s env rule = (s, Err e).
Proof.
  intros Hin Hz. destruct s as [d]. unfold PolicyCreate, dbCreate.
  set (stamped := if IsZero (CreatedAt rule) then _ else rule).
  assert (HZ : ZonePattern stamped = ZonePattern rule)
    by (subst stamped; destruct (IsZero _); reflexivity).
  cbn [db] in *. destruct (fault d) as [msg|]; [cbn; eauto|].
  set (row := if ID stamped =? 0 then _ else stamped).
  assert (HZr : ZonePattern row = ZonePattern rule)
    by (subst row; destruct (ID stamped =? 0); [cbn|]; exact HZ).
  destruct (existsb (fun r => ID r =? ID row) (rows d)) eqn:E1; [cbn; eauto|].
  assert (E2 : existsb (fun r => String.eqb (ZonePattern r) (ZonePattern row))
                 (rows d) = true).
  { apply existsb_exists. exists stored. split; [exact Hin|].
    apply String.eqb_eq. congruence. }
  rewrite E2. cbn. eauto.
Qed.

Lemma PolicyCreate_Ok_content (s s' : storage.Storage) (env : Readings)
    (rule created : PolicyRule) :
  PolicyCreate s env rule = (s', Ok created) ->
  rows (db s') = rows (db s) ++ [created] /\
  ZonePattern created = ZonePattern rule /\
  ZoneSoa created = ZoneSoa rule /\
  TargetUserFilter created = TargetUserFilter rule /\
  Description created = Description rule.
Proof.
  intros H. apply PolicyCreate_Ok_inv in H as (_ & Hc & _ & _ & ->).
  cbv zeta in Hc. split; [reflexivity|]. subst created.
  destruct (IsZero (CreatedAt rule)), (ID rule =? 0) eqn:E; cbn; rewrite ?E; cbn;
    repeat split; reflexivity.
Qed.

Section DummyData.

Variable env : nat -> Readings.



Lemma createEach_taken (rules : list PolicyRule) :
  forall (s : storage.Storage) (i : nat) (rule stored : PolicyRule),
  In rule rules ->
  In stored (rows (db s)) ->
  ZonePattern stored = ZonePattern rule ->
  exists e, snd (createEach s env i rules) = Some e.
Proof.
  induction rules as [|first rules IH]; intros s i rule stored Hrule Hin Hz;
    [contradiction|].
  cbn [createEach].
  destruct (PolicyCreate s (env i) first) as [s1 [created|e]] eqn:E;
    [|cbn; eauto].
  pose proof (PolicyCreate_Ok_content _ _ _ _ _ E) as (Hs1 & _).
  destruct Hrule as [->|Hrule].
  - destruct (PolicyCreate_rejects_taken_keys_any s (env i) rule stored Hin Hz)
      as (e & He).
    congruence.
  - apply (IH s1 (S i) rule stored Hrule); [|exact Hz].
    rewrite Hs1. apply in_or_app. now left.
Qed.

End DummyData.

(** X12. [PolicyInsertDummyData] fails on a store that already holds a
    rule with one of the three dummy zone patterns; in particular it fails
    when it is run a second time on the same table. *)
Theorem PolicyInsertDummyData_fails_when_present
    (s : storage.Storage) (built : nat -> Z) (env : nat -> Readings)
    (stored : PolicyRule) :
  In stored (rows (db s)) ->
  In (ZonePattern stored)
     ["%u.users.dhbw.cloud"; "project.dhbw.cloud"; "%u.cloud.uni-luebeck.de"] ->
  exists e, snd (PolicyInsertDummyData s built env) = Some e.
Proof.
  intros Hin Hz. unfold PolicyInsertDummyData.
  assert (X : exists rule,
             In rule (dummyRules built) /\ ZonePattern stored = ZonePattern rule).
  { unfold dummyRules.
    destruct Hz as [Hz|[Hz|[Hz|[]]]];
      [exists (nth 0 (dummyRules built) stored)
      |exists (nth 1 (dummyRules built) stored)
      |exists (nth 2 (dummyRules built) stored)];
      (split; [cbn; tauto|symmetry; exact Hz]). }
  destruct X as (rule & Hrule & Heq).
  exact (createEach_taken env _ s O rule stored Hrule Hin Heq).
Qed.

Lemma PolicyInsertDummyData_fails_when_present_witness :
  exists e,
    snd (PolicyInsertDummyData
           (fst (PolicyInsertDummyData Sample.emptyStore Sample.builtAt
                   Sample.readingsAt))
           Sample.builtAt (fun i => Sample.readingsAt (3 + i)))
    = Some e.
Proof.
  apply (PolicyInsertDummyData_fails_when_present _ _ _
           {| ID := 2;
              ZonePattern := "project.dhbw.cloud";
              ZoneSoa := "project.dhbw.cloud";
              TargetUserFilter := "*@dhbw.de";
              Description := "All DHBW users can manage a common project zone";
              CreatedAt := 1700000000000000000 + -24 * Hour |}).
  - vm_compute. tauto.
  - simpl. tauto.
Defined.


(** When the third dummy pattern is taken, the first two dummy rules are
    stored all the same and the call reports the failure. *)
Example PolicyInsertDummyData_partial :
  List.map ZonePattern
    (rows (db (fst (PolicyInsertDummyData Sample.luebeckOnly Sample.builtAt
                      Sample.readingsAt))))
  = ["%u.cloud.uni-luebeck.de"; "%u.users.dhbw.cloud"; "project.dhbw.cloud"] /\
  snd (PolicyInsertDummyData Sample.luebeckOnly Sample.builtAt Sample.readingsAt)
  <> None.
Proof. split; [reflexivity|discriminate]. Qed.

(** X14. On a new, healthy table [PolicyInsertDummyData] succeeds whenever
    the sequence hands out three different ids: the table then holds the
    three dummy rules in the order of the source, under those ids. *)
Theorem PolicyInsertDummyData_new_table
    (s : storage.Storage) (built : nat -> Z) (env : nat -> Readings) :
  fault (db s) = None ->
  rows (db s) = [] ->
  serial (env 0%nat) <> serial (env 1%nat) ->
  serial (env 0%nat) <> serial (env 2%nat) ->
  serial (env 1%nat) <> serial (env 2%nat) ->
  snd (PolicyInsertDummyData s built env) = None /\
  List.map (fun r => (ID r, ZonePattern r, ZoneSoa r, TargetUserFilter r))
    (rows (db (fst (PolicyInsertDummyData s built env))))
  = [(serial (env 0%nat), "%u.users.dhbw.cloud", "users.dhbw.cloud", "*@dhbw.de");
     (serial (env 1%nat), "project.dhbw.cloud", "project.dhbw.cloud", "*@dhbw.de");
     (serial (env 2%nat), "%u.cloud.uni-luebeck.de", "cloud.uni-luebeck.de",
      "*@uni-luebeck.de")].
Proof.
  destruct s as [[table kind broken]]. cbn [db fault rows].
  intros -> -> H01 H02 H12.
  apply Z.eqb_neq in H01, H02, H12.
  assert (H10 : (serial (env 1%nat) =? serial (env 0%nat)) = false)
    by (rewrite Z.eqb_sym; exact H01).
  assert (H20 : (serial (env 2%nat) =? serial (env 0%nat)) = false)
    by (rewrite Z.eqb_sym; exact H02).
  assert (H21 : (serial (env 2%nat) =? serial (env 1%nat)) = false)
    by (rewrite Z.eqb_sym; exact H12).
  unfold PolicyInsertDummyData, dummyRules, createEach, PolicyCreate, dbCreate.
  cbn [CreatedAt].
  destruct (IsZero (Add (built 0%nat) (-24 * Hour)));
    destruct (IsZero (Add (built 1%nat) (-24 * Hour)));
    destruct (IsZero (Add (built 2%nat) (-24 * Hour)));
    cbn; rewrite ?H01, ?H02, ?H12, ?H10, ?H20, ?H21; cbn;
    rewrite ?H01, ?H02, ?H12, ?H10, ?H20, ?H21; cbn;
    split; reflexivity.
Qed.

Lemma PolicyInsertDummyData_new_table_witness :
  snd (PolicyInsertDummyData Sample.emptyStore Sample.builtAt Sample.readingsAt)
    = None /\
  List.map (fun r => (ID r, ZonePattern r, ZoneSoa r, TargetUserFilter r))
    (rows (db (fst (PolicyInsertDummyData Sample.emptyStore Sample.builtAt
                      Sample.readingsAt))))
  = [(1, "%u.users.dhbw.cloud", "users.dhbw.cloud", "*@dhbw.de");
     (2, "project.dhbw.cloud", "project.dhbw.cloud", "*@dhbw.de");
     (3, "%u.cloud.uni-luebeck.de", "cloud.uni-luebeck.de", "*@uni-luebeck.de")].
Proof.
  apply (PolicyInsertDummyData_new_table Sample.emptyStore Sample.builtAt
           Sample.readingsAt);
    first [reflexivity|discriminate].
Defined.

(** ** Order of the checks in the handler *)

(** X15. The webhook checks the key before it looks at the body, and the
    body before it reads the store: the status is 401 exactly when the
    Authorization header is not "Bearer " followed by the key, even if the
    body is malformed; it is 400 exactly when the key is accepted and the
    body does not bind, and the body of that answer is the fixed text
    "invalid request body", the bind error going to the log only; in both
    cases the rule store is not read. *)
Theorem webhook_checks_key_then_body (app : AppData) (c : Context) :
  let apiKey := WebhookApiKey (DnsPolicy (Config app)) in
  let authHeader := GetHeader (Header c) "Authorization" in
  let answer := webhookFunc app c in
  (Status (fst answer) = StatusUnauthorized <-> authHeader <> "Bearer " +:+ apiKey) /\
  (Status (fst answer) = StatusBadRequest <->
   authHeader = "Bearer " +:+ apiKey /\ exists err, ShouldBindJSON c = Err err) /\
  (forall err,
     authHeader = "Bearer " +:+ apiKey ->
     ShouldBindJSON c = Err err ->
     answer = ({| Status := StatusBadRequest;
                  Payload := ErrorBody "invalid request body" |},
               [LogDebug "Received webhook DNS policy request";
                LogWarnf "Failed to bind JSON body: %v" err])) /\
  (Status (fst answer) = StatusUnauthorized \/
   Status (fst answer) = StatusBadRequest ->
   ~ In StoreGetAll (snd answer)).
Proof.
  cbv zeta.
  pose proof (verifyApiKey_None_iff c (WebhookApiKey (DnsPolicy (Config app)))) as Hiff.
  destruct (verifyApiKey c (WebhookApiKey (DnsPolicy (Config app)))) as [e|] eqn:E.
  - assert (Hne : GetHeader (Header c) "Authorization"
                  <> "Bearer " +:+ WebhookApiKey (DnsPolicy (Config app))).
    { intros X. apply Hiff in X. discriminate. }
    rewrite (webhookFunc_refused _ _ _ E). cbn [fst snd Status].
    split; [tauto|]. split; [|split].
    + split; [discriminate|]. intros [X _]. contradiction.
    + intros err X. contradiction.
    + intros _ [X|[X|[]]]; discriminate.
  - assert (Heq : GetHeader (Header c) "Authorization"
                  = "Bearer " +:+ WebhookApiKey (DnsPolicy (Config app)))
      by now apply Hiff.
    destruct (ShouldBindJSON c) as [claims|err] eqn:B.
    + rewrite (webhookFunc_accepted _ _ _ E B).
      destruct (PolicyGetAll (Storage app)); cbn [fst snd Status];
        (split; [split; [discriminate|contradiction]|]);
        (split; [split; [discriminate|intros [_ [err X]]; discriminate]|]);
        (split; [intros err _ X; discriminate|]);
        intros [X|X]; discriminate.
    + assert (Hw : webhookFunc app c
                   = ({| Status := StatusBadRequest;
                         Payload := ErrorBody "invalid request body" |},
                      [LogDebug "Received webhook DNS policy request";
                       LogWarnf "Failed to bind JSON body: %v" err])).
      { unfold webhookFunc. rewrite E, B. reflexivity. }
      rewrite Hw. cbn [fst snd Status].
      split; [split; [discriminate|contradiction]|].
      split; [split; [eauto|reflexivity]|].
      split; [intros err' _ X; congruence|].
      intros _ [X|[X|[]]]; discriminate.
Qed.

Lemma webhook_checks_key_then_body_witness :
  webhookFunc Sample.app
    {| Header := [("Authorization", "Bearer s3cret")];
       ShouldBindJSON := Err (ErrNew "unexpected end of JSON input") |}
  = ({| Status := StatusBadRequest; Payload := ErrorBody "invalid request body" |},
     [LogDebug "Received webhook DNS policy request";
      LogWarnf "Failed to bind JSON body: %v" (ErrNew "unexpected end of JSON input")]).
Proof.
  exact (proj1 (proj2 (proj2 (webhook_checks_key_then_body Sample.app
    {| Header := [("Authorization", "Bearer s3cret")];
       ShouldBindJSON := Err (ErrNew "unexpected end of JSON input") |})))
    (ErrNew "unexpected end of JSON input") eq_refl eq_refl).
Defined.
